(** * videoflow: queue based execution environment

    A shallow embedding of [videoflow/environments/queues.py]: the two queue
    messengers ([BatchprocessingQueueMessenger], [RealtimeQueueMessenger])
    and the [QueueExecutionEnvironment] that builds the channels, the tasks
    and the worker processes.

    Conventions.
    - Python's [None] is [None]; an envelope read from a channel is
      therefore an [option] of a dict, and a dict is a [gmap].
    - [multiprocessing.Queue] pickles what is put into it, so a channel
      holds values, never references into the sender's memory.
    - A call suspended inside a blocking [put] or [get] is an outcome of
      its own ([WaitingPut], [WaitingGet]); it is neither a return nor an
      exception. *)

From stdpp Require Import base option list gmap strings pretty.
From Stdlib Require Import ZArith Lia.

Set Default Proof Using "Type".
Open Scope Z_scope.

(** ** Identities, envelopes, exceptions *)

(** Node identities are opaque keys. *)
Abbreviation node_id := nat.

(** The object travelling on a channel: a dict from node identity to the
    value that node produced, or Python's [None]. *)
Abbreviation envelope V := (option (gmap node_id V)).

Inductive Exn : Type :=
| Full                 (* queue.Full *)
| AttributeError       (* method call on None *)
| TypeError            (* subscript of None *)
| KeyError (k : node_id)
| UnboundLocalError
| RuntimeError
| KeyboardInterrupt.

(** How a call ends, as seen by its caller. *)
Inductive Outcome (V A : Type) : Type :=
| Returned (a : A)
| Raised (e : Exn)
| WaitingPut (obj : envelope V)  (* suspended in put(obj, block=True) *)
| WaitingGet.                    (* suspended in get() *)
Arguments Returned {V A} a.
Arguments Raised {V A} e.
Arguments WaitingPut {V A} obj.
Arguments WaitingGet {V A}.

(** [try: ... except: pass] *)
Definition try_except_pass {V} (o : Outcome V unit) : Outcome V unit :=
  match o with
  | Raised _ => Returned tt
  | _ => o
  end.

(** ** multiprocessing.Queue *)

Record Queue (V : Type) : Type := mkQueue {
  maxsize : nat;
  items : list (envelope V)
}.
Arguments mkQueue {V} maxsize items.
Arguments maxsize {V} q.
Arguments items {V} q.

(** [Queue(n)] *)
Definition new_Queue {V} (n : nat) : Queue V := mkQueue n [].

Definition full {V} (q : Queue V) : bool := (maxsize q <=? length (items q))%nat.

Definition enqueue {V} (q : Queue V) (obj : envelope V) : Queue V :=
  mkQueue (maxsize q) (items q ++ [obj]).

Inductive PutResult (V : Type) : Type :=
| PutOk (q' : Queue V)
| PutFull      (* raise Full *)
| PutWait.     (* the caller sleeps until a slot is released *)
Arguments PutOk {V} q'.
Arguments PutFull {V}.
Arguments PutWait {V}.

(** [q.put(obj, block)] *)
Definition put {V} (q : Queue V) (obj : envelope V) (block : bool) : PutResult V :=
  if full q then (if block then PutWait else PutFull)
  else PutOk (enqueue q obj).

Inductive GetResult (V : Type) : Type :=
| GetOk (obj : envelope V) (q' : Queue V)
| GetWait.     (* the caller sleeps until an item arrives *)
Arguments GetOk {V} obj q'.
Arguments GetWait {V}.

(** [q.get()] *)
Definition get {V} (q : Queue V) : GetResult V :=
  match items q with
  | [] => GetWait
  | obj :: rest => GetOk obj (mkQueue (maxsize q) rest)
  end.

(** [ref.put(obj, block)] where [ref] is a queue or [None]. *)
Definition queue_put {V} (tq : option (Queue V)) (obj : envelope V) (block : bool)
  : option (Queue V) * Outcome V unit :=
  match tq with
  | None => (None, Raised AttributeError)
  | Some q =>
      match put q obj block with
      | PutOk q' => (Some q', Returned tt)
      | PutFull => (Some q, Raised Full)
      | PutWait => (Some q, WaitingPut obj)
      end
  end.

(** ** Nodes and messengers *)

Inductive Device : Type := GPU | CPU.

Inductive NodeKind : Type := ProducerNode | ProcessorNode | ConsumerNode | OtherNode.

(** The attributes of a node: [id], the ids of [parents] ([None] when the
    node has no parent list), the class it is an instance of, and the
    device it asks for. *)
Record Node : Type := mkNode {
  id : node_id;
  parents : option (list node_id);
  kind : NodeKind;
  affinity : Device
}.

Module QueueMessenger.

(** References to the shared objects a messenger is built with. *)
Abbreviation qref := nat.
Abbreviation eref := nat.

(** The fields of a messenger object; both classes have the same ones. *)
Record Messenger (V : Type) : Type := mkMessenger {
  _computation_node : Node;
  _parent_task_queue : option qref;
  _task_queue : option qref;
  _parent_nodes_ids : list node_id;
  _termination_event : option eref;
  _last_message_received : envelope V
}.
Arguments mkMessenger {V}.
Arguments _computation_node {V} m.
Arguments _parent_task_queue {V} m.
Arguments _task_queue {V} m.
Arguments _parent_nodes_ids {V} m.
Arguments _termination_event {V} m.
Arguments _last_message_received {V} m.

Definition set_last_message_received {V} (m : Messenger V) (e : envelope V) : Messenger V :=
  mkMessenger (_computation_node m) (_parent_task_queue m) (_task_queue m)
              (_parent_nodes_ids m) (_termination_event m) e.

(** [[input_message_dict[a] for a in ids]] *)
Fixpoint index_all {V} (input_message_dict : envelope V) (ids : list node_id)
  : Exn + list V :=
  match ids with
  | [] => inr []
  | a :: rest =>
      match input_message_dict with
      | None => inl TypeError
      | Some d =>
          match d !! a with
          | None => inl (KeyError a)
          | Some v =>
              match index_all input_message_dict rest with
              | inl e => inl e
              | inr vs => inr (v :: vs)
              end
          end
      end
  end.

(** [self._task_queue.put(obj, block = block)]; the second argument is the
    queue object [self._task_queue] refers to. *)
Definition task_queue_put {V} (m : Messenger V) (tq : option (Queue V))
    (obj : envelope V) (block : bool)
  : Messenger V * option (Queue V) * Outcome V unit :=
  let '(tq', o) := queue_put tq obj block in (m, tq', o).

(** An event store: one boolean per [Event] object. *)
Definition is_set (events : list bool) (e : eref) : bool :=
  default false (events !! e).

End QueueMessenger.
Export QueueMessenger.

Module BatchprocessingQueueMessenger.
Section Ops.
Context {V : Type}.
Implicit Types (m : Messenger V) (tq : option (Queue V)).

Definition __init__ (computation_node : Node) (task_queue parent_task_queue : option qref)
    (termination_event : option eref) : Messenger V :=
  mkMessenger computation_node parent_task_queue task_queue
    (match parents computation_node with
     | Some ps => ps
     | None => []
     end)
    termination_event None.

Definition publish_message m (message : V) tq
  : Messenger V * option (Queue V) * Outcome V unit :=
  match _last_message_received m with
  | None =>
      let msg : gmap node_id V := {[ id (_computation_node m) := message ]} in
      task_queue_put m tq (Some msg) true
  | Some d =>
      let m' := set_last_message_received m
                  (Some (<[ id (_computation_node m) := message ]> d)) in
      task_queue_put m' tq (_last_message_received m') true
  end.

Definition check_for_termination m (events : list bool) : Outcome V bool :=
  match _termination_event m with
  | None => Raised AttributeError
  | Some e => Returned (is_set events e)
  end.

Definition publish_termination_message m (message : V) tq :=
  publish_message m message tq.

Definition passthrough_message m tq
  : Messenger V * option (Queue V) * Outcome V unit :=
  task_queue_put m tq (_last_message_received m) true.

Definition passthrough_termination_message m tq :=
  passthrough_message m tq.

(** The second argument is the queue object [self._parent_task_queue]
    refers to. *)
Definition receive_message m (pq : option (Queue V))
  : Messenger V * option (Queue V) * Outcome V (list V) :=
  match pq with
  | None => (m, None, Raised AttributeError)
  | Some q =>
      match get q with
      | GetWait => (m, Some q, WaitingGet)
      | GetOk input_message_dict q' =>
          let m' := set_last_message_received m input_message_dict in
          match index_all input_message_dict (_parent_nodes_ids m) with
          | inl e => (m', Some q', Raised e)
          | inr inputs => (m', Some q', Returned inputs)
          end
      end
  end.
End Ops.
End BatchprocessingQueueMessenger.

Module RealtimeQueueMessenger.
Section Ops.
Context {V : Type}.
Implicit Types (m : Messenger V) (tq : option (Queue V)).

Definition __init__ (computation_node : Node) (task_queue parent_task_queue : option qref)
    (termination_event : option eref) : Messenger V :=
  mkMessenger computation_node parent_task_queue task_queue
    (match parents computation_node with
     | Some ps => ps
     | None => []
     end)
    termination_event None.

(** The body of a [try] whose handler is [except: pass]. *)
Definition swallowing (r : Messenger V * option (Queue V) * Outcome V unit)
  : Messenger V * option (Queue V) * Outcome V unit :=
  let '(m, tq, o) := r in (m, tq, try_except_pass o).

Definition publish_message m (message : V) tq
  : Messenger V * option (Queue V) * Outcome V unit :=
  match _last_message_received m with
  | None =>
      swallowing
        (let msg : gmap node_id V := {[ id (_computation_node m) := message ]} in
         task_queue_put m tq (Some msg) false)
  | Some d =>
      let m' := set_last_message_received m
                  (Some (<[ id (_computation_node m) := message ]> d)) in
      swallowing (task_queue_put m' tq (_last_message_received m') false)
  end.

Definition check_for_termination m (events : list bool) : Outcome V bool :=
  match _termination_event m with
  | None => Raised AttributeError
  | Some e => Returned (is_set events e)
  end.

Definition publish_termination_message m (message : V) tq
  : Messenger V * option (Queue V) * Outcome V unit :=
  match _last_message_received m with
  | None =>
      swallowing
        (let msg : gmap node_id V := {[ id (_computation_node m) := message ]} in
         task_queue_put m tq (Some msg) true)
  | Some d =>
      let m' := set_last_message_received m
                  (Some (<[ id (_computation_node m) := message ]> d)) in
      swallowing (task_queue_put m' tq (_last_message_received m') true)
  end.

Definition passthrough_message m tq
  : Messenger V * option (Queue V) * Outcome V unit :=
  swallowing (task_queue_put m tq (_last_message_received m) false).

Definition passthrough_termination_message m tq
  : Messenger V * option (Queue V) * Outcome V unit :=
  swallowing (task_queue_put m tq (_last_message_received m) true).

(** The second argument is the queue object [self._parent_task_queue]
    refers to. *)
Definition receive_message m (pq : option (Queue V))
  : Messenger V * option (Queue V) * Outcome V (list V) :=
  match pq with
  | None => (m, None, Raised AttributeError)
  | Some q =>
      match get q with
      | GetWait => (m, Some q, WaitingGet)
      | GetOk input_message_dict q' =>
          let m' := set_last_message_received m input_message_dict in
          match index_all input_message_dict (_parent_nodes_ids m) with
          | inl e => (m', Some q', Raised e)
          | inr inputs => (m', Some q', Returned inputs)
          end
      end
  end.
End Ops.
End RealtimeQueueMessenger.

(** ** The messenger interface

    [Messenger] is the abstract base class both messengers implement; the
    delivery policy selects the class. *)

Inductive FlowType : Type := BATCH | REALTIME | OtherFlow.

Inductive MessengerClass : Type := Batchprocessing | Realtime.

(** The four sending methods of the interface. *)
Inductive Send (V : Type) : Type :=
| publish_message_ (message : V)
| publish_termination_message_ (message : V)
| passthrough_message_
| passthrough_termination_message_.
Arguments publish_message_ {V} message.
Arguments publish_termination_message_ {V} message.
Arguments passthrough_message_ {V}.
Arguments passthrough_termination_message_ {V}.

Definition send {V} (c : MessengerClass) (s : Send V) (m : Messenger V)
    (tq : option (Queue V)) : Messenger V * option (Queue V) * Outcome V unit :=
  match c, s with
  | Batchprocessing, publish_message_ x => BatchprocessingQueueMessenger.publish_message m x tq
  | Batchprocessing, publish_termination_message_ x =>
      BatchprocessingQueueMessenger.publish_termination_message m x tq
  | Batchprocessing, passthrough_message_ => BatchprocessingQueueMessenger.passthrough_message m tq
  | Batchprocessing, passthrough_termination_message_ =>
      BatchprocessingQueueMessenger.passthrough_termination_message m tq
  | Realtime, publish_message_ x => RealtimeQueueMessenger.publish_message m x tq
  | Realtime, publish_termination_message_ x =>
      RealtimeQueueMessenger.publish_termination_message m x tq
  | Realtime, passthrough_message_ => RealtimeQueueMessenger.passthrough_message m tq
  | Realtime, passthrough_termination_message_ =>
      RealtimeQueueMessenger.passthrough_termination_message m tq
  end.

Definition receive {V} (c : MessengerClass) (m : Messenger V) (pq : option (Queue V))
  : Messenger V * option (Queue V) * Outcome V (list V) :=
  match c with
  | Batchprocessing => BatchprocessingQueueMessenger.receive_message m pq
  | Realtime => RealtimeQueueMessenger.receive_message m pq
  end.

Definition check_for_termination {V} (c : MessengerClass) (m : Messenger V)
    (events : list bool) : Outcome V bool :=
  match c with
  | Batchprocessing => BatchprocessingQueueMessenger.check_for_termination m events
  | Realtime => RealtimeQueueMessenger.check_for_termination m events
  end.

(** A worker making the calls [ss] one after the other, for as long as
    each one returns. *)
Fixpoint send_all {V} (c : MessengerClass) (ss : list (Send V)) (m : Messenger V)
    (tq : option (Queue V)) : Messenger V * option (Queue V) * Outcome V unit :=
  match ss with
  | [] => (m, tq, Returned tt)
  | s :: rest =>
      match send c s m tq with
      | (m', tq', Returned _) => send_all c rest m' tq'
      | r => r
      end
  end.

(** The dict a publish stamps [message] into, after the stamp. *)
Definition stamped {V} (m : Messenger V) (message : V) : gmap node_id V :=
  match _last_message_received m with
  | None => {[ id (_computation_node m) := message ]}
  | Some d => <[ id (_computation_node m) := message ]> d
  end.

(** The object a sending method hands to [put]. *)
Definition outgoing {V} (s : Send V) (m : Messenger V) : envelope V :=
  match s with
  | publish_message_ x | publish_termination_message_ x => Some (stamped m x)
  | passthrough_message_ | passthrough_termination_message_ => _last_message_received m
  end.

(** The messenger's fields once the sending method has run up to its [put]. *)
Definition after_stamp {V} (s : Send V) (m : Messenger V) : Messenger V :=
  match s, _last_message_received m with
  | (publish_message_ x | publish_termination_message_ x), Some _ =>
      set_last_message_received m (Some (stamped m x))
  | _, _ => m
  end.

(** ** Shared objects and the startup log *)

(** What startup does, in the order it does it.  Processes are named by
    their position in [self._procs]. *)
Inductive Ev : Type :=
| QueueCreated (task_id : node_id) (r : qref)
| EventCreated (e : eref)
| MessengerCreated (node : node_id)
| TaskCreated (node : node_id)
| ProcessCreated (i : nat)
| ProcessStarted (i : nat).

(** The objects shared between the scheduler and the workers: the queues,
    the events, and the log of what has been done. *)
Record World (V : Type) : Type := mkWorld {
  queues : list (Queue V);
  events : list bool;
  log : list Ev
}.
Arguments mkWorld {V}.
Arguments queues {V} w.
Arguments events {V} w.
Arguments log {V} w.

Definition emit {V} (w : World V) (evs : list Ev) : World V :=
  mkWorld (queues w) (events w) (log w ++ evs).

(** [Queue(n)]: a new queue object; returns its reference. *)
Definition alloc_queue {V} (w : World V) (n : nat) : qref * World V :=
  (length (queues w), mkWorld (queues w ++ [new_Queue n]) (events w) (log w)).

(** [Event()]: a new event object, unset; returns its reference. *)
Definition alloc_event {V} (w : World V) : eref * World V :=
  (length (events w), mkWorld (queues w) (events w ++ [false]) (log w)).

(** [event.set()] *)
Definition set_event {V} (w : World V) (e : eref) : World V :=
  mkWorld (queues w) (<[ e := true ]> (events w)) (log w).

(** The queue object behind a reference held in a field ([None] stays [None]). *)
Definition deref {V} (w : World V) (r : option qref) : option (Queue V) :=
  r ≫= λ i, queues w !! i.

(** Write back the queue object behind a reference. *)
Definition store {V} (w : World V) (r : option qref) (q : option (Queue V)) : World V :=
  match r, q with
  | Some i, Some q' => mkWorld (<[ i := q' ]> (queues w)) (events w) (log w)
  | _, _ => w
  end.

(** ** Tasks and processes *)

Inductive Task (V : Type) : Type :=
| ProducerTask (node : Node) (messenger : MessengerClass * Messenger V) (task_id : node_id)
| ProcessorTask (node : Node) (messenger : MessengerClass * Messenger V) (task_id : node_id)
    (parent_task_id : option node_id)
| ConsumerTask (node : Node) (messenger : MessengerClass * Messenger V) (task_id : node_id)
    (parent_task_id : option node_id) (has_children : bool).
Arguments ProducerTask {V}.
Arguments ProcessorTask {V}.
Arguments ConsumerTask {V}.

Definition task_messenger {V} (t : Task V) : MessengerClass * Messenger V :=
  match t with
  | ProducerTask _ ms _ | ProcessorTask _ ms _ _ | ConsumerTask _ ms _ _ _ => ms
  end.

Definition task_node {V} (t : Task V) : Node :=
  match t with
  | ProducerTask n _ _ | ProcessorTask n _ _ _ | ConsumerTask n _ _ _ _ => n
  end.

(** [isinstance(task, ProcessorTask)]; [task] may be [None]. *)
Definition is_ProcessorTask {V} (t : option (Task V)) : bool :=
  match t with
  | Some (ProcessorTask _ _ _ _) => true
  | _ => false
  end.

(** A [Process] object, by its target and arguments. *)
Inductive Process (V : Type) : Type :=
| task_executor_fn (task : option (Task V))
| task_executor_gpu_fn (task : option (Task V)) (gpu_id : Z).
Arguments task_executor_fn {V}.
Arguments task_executor_gpu_fn {V}.

Definition create_process_task {V} (task : option (Task V)) : Process V :=
  task_executor_fn task.

Definition create_process_task_gpu {V} (task : option (Task V)) (gpu_id : Z) : Process V :=
  task_executor_gpu_fn task gpu_id.

Definition process_task {V} (p : Process V) : option (Task V) :=
  match p with
  | task_executor_fn t | task_executor_gpu_fn t _ => t
  end.

(** The accelerator a unit restricts itself to ([CUDA_VISIBLE_DEVICES]),
    if any. *)
Definition process_gpu {V} (p : Process V) : option Z :=
  match p with
  | task_executor_fn _ => None
  | task_executor_gpu_fn _ g => Some g
  end.

(** One entry of [tasks_data]: [(node, node_id, parent_node_id, has_children)]. *)
Record TaskData : Type := mkTaskData {
  data_node : Node;
  data_node_id : node_id;
  data_parent_node_id : option node_id;
  data_has_children : bool
}.

(** How one call of [proc.join()] ends. *)
Inductive JoinResult : Type := Exits | Interrupted.

(** ** QueueExecutionEnvironment *)

Module QueueExecutionEnvironment.

(** The fields of the environment object. *)
Record Env (V : Type) : Type := mkEnv {
  _flow_type : FlowType;
  _procs : list (Process V);
  _tasks : list (option (Task V));
  _task_output_queues : gmap node_id qref;
  _task_termination_notification_queues : gmap node_id qref;
  _termination_event : option eref;
  _nb_available_gpus : Z;
  _next_gpu : Z
}.
Arguments mkEnv {V}.
Arguments _flow_type {V} _.
Arguments _procs {V} _.
Arguments _tasks {V} _.
Arguments _task_output_queues {V} _.
Arguments _task_termination_notification_queues {V} _.
Arguments _termination_event {V} _.
Arguments _nb_available_gpus {V} _.
Arguments _next_gpu {V} _.

Section Scheduler.
Context {V : Type}.

(** [task.device_type] and [task.change_device(device)] belong to
    [ProcessorTask], which [videoflow.core.task] defines; they are taken
    as given.  [change_device] answers [None] when the call raises. *)
Variable device_type : Task V -> Device.
Variable change_device : Task V -> Device -> option (Task V).

Implicit Types (self : Env V) (w : World V).

Definition set_procs self (ps : list (Process V)) : Env V :=
  mkEnv (_flow_type self) ps (_tasks self) (_task_output_queues self)
        (_task_termination_notification_queues self) (_termination_event self)
        (_nb_available_gpus self) (_next_gpu self).

Definition set_task_output_queues self (qs : gmap node_id qref) : Env V :=
  mkEnv (_flow_type self) (_procs self) (_tasks self) qs
        (_task_termination_notification_queues self) (_termination_event self)
        (_nb_available_gpus self) (_next_gpu self).

Definition set_termination_event self (e : option eref) : Env V :=
  mkEnv (_flow_type self) (_procs self) (_tasks self) (_task_output_queues self)
        (_task_termination_notification_queues self) e
        (_nb_available_gpus self) (_next_gpu self).

Definition set_next_gpu self (g : Z) : Env V :=
  mkEnv (_flow_type self) (_procs self) (_tasks self) (_task_output_queues self)
        (_task_termination_notification_queues self) (_termination_event self)
        (_nb_available_gpus self) g.

(** [__init__]; the second argument is what [get_number_of_gpus()] answers. *)
Definition __init__ (flow_type : FlowType) (get_number_of_gpus : Z) : Env V :=
  mkEnv flow_type [] [] ∅ ∅ None get_number_of_gpus (-1).

(** Step 0 of [_al_create_and_start_processes]: the output queues. *)
Fixpoint create_output_queues (tasks_data : list TaskData) self w : Env V * World V :=
  match tasks_data with
  | [] => (self, w)
  | data :: rest =>
      let task_id := data_node_id data in
      let '(queue, w1) := alloc_queue w 10 in
      let self1 :=
        set_task_output_queues self (<[ task_id := queue ]> (_task_output_queues self)) in
      create_output_queues rest self1 (emit w1 [QueueCreated task_id queue])
  end.

(** Step 1.1: the messenger of one task.  With a flow type that is
    neither [BATCH] nor [REALTIME] the local [messenger] is never bound. *)
Definition new_messenger self (node : Node) (task_queue parent_task_queue : option qref)
  : option (MessengerClass * Messenger V) :=
  match _flow_type self with
  | BATCH =>
      Some (Batchprocessing,
            BatchprocessingQueueMessenger.__init__ node task_queue parent_task_queue (_termination_event self))
  | REALTIME =>
      Some (Realtime,
            RealtimeQueueMessenger.__init__ node task_queue parent_task_queue (_termination_event self))
  | OtherFlow => None
  end.

(** Step 1: the task of one entry; [None] when the node is of no known class. *)
Definition new_task (data : TaskData) (messenger : option (MessengerClass * Messenger V))
  : Exn + option (Task V) :=
  let node := data_node data in
  let node_id := data_node_id data in
  let parent_node_id := data_parent_node_id data in
  let has_children := data_has_children data in
  match kind node, messenger with
  | OtherNode, _ => inr None
  | _, None => inl UnboundLocalError
  | ProducerNode, Some ms => inr (Some (ProducerTask node ms node_id))
  | ProcessorNode, Some ms => inr (Some (ProcessorTask node ms node_id parent_node_id))
  | ConsumerNode, Some ms =>
      inr (Some (ConsumerTask node ms node_id parent_node_id has_children))
  end.

Fixpoint initialize_tasks (tasks_data : list TaskData) self w
    (tasks : list (option (Task V))) : World V * (Exn + list (option (Task V))) :=
  match tasks_data with
  | [] => (w, inr tasks)
  | data :: rest =>
      let node := data_node data in
      let node_id := data_node_id data in
      let parent_node_id := data_parent_node_id data in
      let task_queue := _task_output_queues self !! node_id in
      let parent_task_queue := parent_node_id ≫= λ p, _task_output_queues self !! p in
      let messenger := new_messenger self node task_queue parent_task_queue in
      let w1 :=
        emit w (match messenger with Some _ => [MessengerCreated node_id] | None => [] end) in
      match new_task data messenger with
      | inl e => (w1, inl e)
      | inr task =>
          initialize_tasks rest self
            (emit w1 (match task with Some _ => [TaskCreated node_id] | None => [] end))
            (tasks ++ [task])
      end
  end.

(** Step 2, the body of the loop: the process of one task. *)
Definition create_process (task : option (Task V)) self : Env V * (Exn + Process V) :=
  match task with
  | Some t =>
      if is_ProcessorTask task then
        match device_type t with
        | GPU =>
            let self1 := set_next_gpu self (_next_gpu self + 1) in
            if _next_gpu self1 <? _nb_available_gpus self1 then
              (self1, inr (create_process_task_gpu task (_next_gpu self1)))
            else
              match change_device t CPU with
              | Some t' => (self1, inr (create_process_task (Some t')))
              | None => (self1, inl RuntimeError)
              end
        | CPU => (self, inr (create_process_task task))
        end
      else (self, inr (create_process_task task))
  | None => (self, inr (create_process_task task))
  end.

Fixpoint create_processes (tasks : list (option (Task V))) self w
  : Env V * World V * Outcome V unit :=
  match tasks with
  | [] => (self, w, Returned tt)
  | task :: rest =>
      match create_process task self with
      | (self1, inl e) => (self1, w, Raised e)
      | (self1, inr proc) =>
          create_processes rest (set_procs self1 (_procs self1 ++ [proc]))
            (emit w [ProcessCreated (length (_procs self1))])
      end
  end.

(** Step 3: [for proc in self._procs: proc.start()] *)
Definition start_processes self w : World V :=
  emit w (imap (λ i _, ProcessStarted i) (_procs self)).

(** Steps 2 and 3 of [_al_create_and_start_processes]. *)
Definition create_and_start (tasks : list (option (Task V))) self w
  : Env V * World V * Outcome V unit :=
  match create_processes tasks self w with
  | (self3, w4, Returned _) => (self3, start_processes self3 w4, Returned tt)
  | (self3, w4, o) => (self3, w4, o)
  end.

(** Steps 0 and 1 of [_al_create_and_start_processes], with the event
    created in between. *)
Definition create_tasks self (tasks_data : list TaskData) w
  : Env V * World V * (Exn + list (option (Task V))) :=
  let '(self1, w1) := create_output_queues tasks_data self w in
  let '(event, w2) := alloc_event w1 in
  let self2 := set_termination_event self1 (Some event) in
  let w2 := emit w2 [EventCreated event] in
  let '(w3, tasks) := initialize_tasks tasks_data self2 w2 [] in
  (self2, w3, tasks).

Definition _al_create_and_start_processes self (tasks_data : list TaskData) w
  : Env V * World V * Outcome V unit :=
  match create_tasks self tasks_data w with
  | (self2, w3, inl e) => (self2, w3, Raised e)
  | (self2, w3, inr tasks) => create_and_start tasks self2 w3
  end.

(** A transform task that asks for an accelerator. *)
Definition requests_gpu (task : option (Task V)) : bool :=
  match task with
  | Some t =>
      is_ProcessorTask task && match device_type t with GPU => true | CPU => false end
  | None => false
  end.

(** The place of task [j] among the accelerator-requesting tasks of
    [tasks], counting from 1. *)
Definition gpu_rank (tasks : list (option (Task V))) (j : nat) : nat :=
  length (filter (λ t, requests_gpu t = true) (take (S j) tasks)).

Definition signal_flow_termination self w : World V * Outcome V unit :=
  match _termination_event self with
  | None => (w, Raised AttributeError)
  | Some e => (set_event w e, Returned tt)
  end.

(** [join_task_processes].  [join i k] is how the [k]-th call of
    [proc.join()] on the [i]-th process ends.  The result lists the
    processes whose wait completed. *)
Fixpoint join_from (join : nat -> nat -> JoinResult) (i : nat) (procs : list (Process V))
  : list nat * Outcome V unit :=
  match procs with
  | [] => ([], Returned tt)
  | _ :: rest =>
      match join i 0%nat with
      | Exits => let '(done, o) := join_from join (S i) rest in (i :: done, o)
      | Interrupted =>
          match join i 1%nat with
          | Exits => let '(done, o) := join_from join (S i) rest in (i :: done, o)
          | Interrupted => ([], Raised KeyboardInterrupt)
          end
      end
  end.

Definition join_task_processes self (join : nat -> nat -> JoinResult)
  : list nat * Outcome V unit :=
  join_from join 0%nat (_procs self).
End Scheduler.
End QueueExecutionEnvironment.

(** ** The operations of a run, on the shared objects

    A worker calls the methods of its messenger; the driver calls the
    methods of the environment.  Each call reads and writes the shared
    objects through the references the caller holds. *)

Section Run.
Context {V : Type}.
Variable device_type : Task V -> Device.
Variable change_device : Task V -> Device -> option (Task V).

Import QueueExecutionEnvironment.

Definition call_send (c : MessengerClass) (s : Send V) (m : Messenger V) (w : World V)
  : Messenger V * World V * Outcome V unit :=
  let '(m', tq', o) := send c s m (deref w (_task_queue m)) in
  (m', store w (_task_queue m) tq', o).

Definition call_receive (c : MessengerClass) (m : Messenger V) (w : World V)
  : Messenger V * World V * Outcome V (list V) :=
  let '(m', pq', o) := receive c m (deref w (_parent_task_queue m)) in
  (m', store w (_parent_task_queue m) pq', o).

Definition call_check (c : MessengerClass) (m : Messenger V) (w : World V)
  : Outcome V bool :=
  check_for_termination c m (events w).

(** One operation of some messenger or of some environment. *)
Inductive step : World V -> World V -> Prop :=
| step_send c s m w : step w (call_send c s m w).1.2
| step_receive c m w : step w (call_receive c m w).1.2
| step_check (c : MessengerClass) (m : Messenger V) w : step w w
| step_create self tasks_data w :
    step w (_al_create_and_start_processes device_type change_device self tasks_data w).1.2
| step_signal (self : Env V) w : step w (signal_flow_termination self w).1
| step_join (self : Env V) (join : nat -> nat -> JoinResult) w : step w w.
End Run.


(** ** Vocabulary of the statements *)

(** The queue never holds more than [maxsize] items: [put] is the only
    way in and it refuses a full queue. *)
Definition within_capacity {V} (q : Queue V) : Prop :=
  (length (items q) ≤ maxsize q)%nat.

(** Which sending methods pass [block = True] to [put], per class. *)
Definition blocking {V} (c : MessengerClass) (s : Send V) : bool :=
  match c, s with
  | Batchprocessing, _ => true
  | Realtime, (publish_termination_message_ _ | passthrough_termination_message_) => true
  | Realtime, (publish_message_ _ | passthrough_message_) => false
  end.

Definition is_channel_setup (ev : Ev) : bool :=
  match ev with QueueCreated _ _ | EventCreated _ => true | _ => false end.

Definition is_construction (ev : Ev) : bool :=
  match ev with MessengerCreated _ | TaskCreated _ => true | _ => false end.

Definition is_process_created (ev : Ev) : bool :=
  match ev with ProcessCreated _ => true | _ => false end.

Definition is_process_started (ev : Ev) : bool :=
  match ev with ProcessStarted _ => true | _ => false end.

(** The four phases of startup. *)
Definition phase (ev : Ev) : nat :=
  match ev with
  | QueueCreated _ _ | EventCreated _ => 0
  | MessengerCreated _ | TaskCreated _ => 1
  | ProcessCreated _ => 2
  | ProcessStarted _ => 3
  end.

(** A log whose phases never go back. *)
Definition phase_sorted (L : list Ev) : Prop :=
  ∀ i j a b, L !! i = Some a → L !! j = Some b → (i ≤ j)%nat → (phase a ≤ phase b)%nat.

(** In [L], every event of kind [P] comes before every event of kind [Q]. *)
Definition precedes (P Q : Ev → bool) (L : list Ev) : Prop :=
  ∀ i j a b, L !! i = Some a → L !! j = Some b → P a = true → Q b = true → (i < j)%nat.

(** ** Concrete pipelines, for the examples *)

Module Examples.

Definition node_A : Node := mkNode 1 None ProducerNode CPU.
Definition node_B : Node := mkNode 2 (Some [1%nat]) ProcessorNode CPU.
Definition node_K : Node := mkNode 3 (Some [1%nat; 2%nat]) ConsumerNode CPU.

(** A source that has received nothing. *)
Definition source : Messenger Z :=
  BatchprocessingQueueMessenger.__init__ node_A (Some 0%nat) None (Some 0%nat).

(** A transform holding the envelope its parent sent. *)
Definition transform : Messenger Z :=
  set_last_message_received
    (BatchprocessingQueueMessenger.__init__ node_B (Some 1%nat) (Some 0%nat) (Some 0%nat))
    (Some {[ 1%nat := 7 ]}).

Definition sink : Messenger Z :=
  BatchprocessingQueueMessenger.__init__ node_K (Some 2%nat) (Some 1%nat) (Some 0%nat).

Definition empty2 : Queue Z := new_Queue 2.
Definition full2 : Queue Z := mkQueue 2 [Some {[ 1%nat := 5 ]}; Some {[ 1%nat := 6 ]}].

(** source -> transform -> sink *)
Definition pipeline : list TaskData :=
  [ mkTaskData node_A 1 None true;
    mkTaskData node_B 2 (Some 1%nat) true;
    mkTaskData node_K 3 (Some 2%nat) false ].

(** Three transforms asking for an accelerator. *)
Definition node_G (i : node_id) (parent : node_id) : Node :=
  mkNode i (Some [parent]) ProcessorNode GPU.

Definition gpu_pipeline : list TaskData :=
  [ mkTaskData node_A 1 None true;
    mkTaskData (node_G 4 1) 4 (Some 1%nat) true;
    mkTaskData (node_G 5 4) 5 (Some 4%nat) true;
    mkTaskData (node_G 6 5) 6 (Some 5%nat) true ].

(** One transform asking for an accelerator, whose node refuses any other
    device. *)
Definition stubborn_pipeline : list TaskData :=
  [ mkTaskData node_A 1 None true;
    mkTaskData (node_G 9 1) 9 (Some 1%nat) false ].

(** An instance of the two [ProcessorTask] members: the device is the
    node's, and node 9 refuses to change it. *)
Definition device_type (t : Task Z) : Device := affinity (task_node t).

Definition with_device (n : Node) (d : Device) : Node :=
  mkNode (id n) (parents n) (kind n) d.

Definition change_device (t : Task Z) (d : Device) : option (Task Z) :=
  if decide (id (task_node t) = 9%nat) then None
  else Some
    match t with
    | ProducerTask n ms i => ProducerTask (with_device n d) ms i
    | ProcessorTask n ms i p => ProcessorTask (with_device n d) ms i p
    | ConsumerTask n ms i p h => ConsumerTask (with_device n d) ms i p h
    end.

Definition empty_world : World Z := mkWorld [] [] [].

(** The envelope that reaches the sink: A's value, then B's. *)
Definition envelope_AB : gmap node_id Z := <[ 2%nat := 14 ]> {[ 1%nat := 7 ]}.

Definition inbox : Queue Z := mkQueue 2 [Some envelope_AB].

(** The pipeline, started in batch mode on a host without accelerators. *)
Definition pipeline_run : QueueExecutionEnvironment.Env Z * World Z * Outcome Z unit :=
  QueueExecutionEnvironment._al_create_and_start_processes device_type change_device
    (QueueExecutionEnvironment.__init__ BATCH 0) pipeline empty_world.

(** The shared objects once the driver has signalled termination and the
    source has published once more. *)
Definition signalled : World Z :=
  (QueueExecutionEnvironment.signal_flow_termination pipeline_run.1.1 pipeline_run.1.2).1.

Definition after_publish : World Z :=
  (call_send Batchprocessing (publish_message_ 5) source signalled).1.2.

(** The tasks of the accelerator pipeline on a host with two accelerators. *)
Definition gpu_env : QueueExecutionEnvironment.Env Z :=
  QueueExecutionEnvironment.__init__ BATCH 2.

Definition gpu_tasks_built
  : QueueExecutionEnvironment.Env Z * World Z * (Exn + list (option (Task Z))) :=
  QueueExecutionEnvironment.create_tasks gpu_env gpu_pipeline empty_world.

Definition gpu_tasks : list (option (Task Z)) :=
  match gpu_tasks_built.2 with
  | inr tasks => tasks
  | inl _ => []
  end.

(** A unit whose wait is interrupted once, and one whose wait is
    interrupted again during the retry. *)
Definition interrupted_once (i k : nat) : JoinResult :=
  match i, k with
  | 1%nat, 0%nat => Interrupted
  | _, _ => Exits
  end.

Definition interrupted_twice (i k : nat) : JoinResult :=
  match i, k with
  | 0%nat, (0%nat | 1%nat) => Interrupted
  | _, _ => Exits
  end.

End Examples.

(** ** A worker reading several envelopes *)

(** The outcome of a call, with its result (if any) replaced. *)
Definition outcome_bind {V A B} (o : Outcome V A) (f : A → Outcome V B) : Outcome V B :=
  match o with
  | Returned a => f a
  | Raised e => Raised e
  | WaitingPut obj => WaitingPut obj
  | WaitingGet => WaitingGet
  end.

(** A worker calling [receive_message] [n] times, for as long as each call
    returns; the results, in the order of the calls. *)
Fixpoint receive_n {V} (c : MessengerClass) (n : nat) (m : Messenger V)
    (pq : option (Queue V)) : Messenger V * option (Queue V) * Outcome V (list (list V)) :=
  match n with
  | O => (m, pq, Returned [])
  | S n' =>
      let '(m1, pq1, o1) := receive c m pq in
      match o1 with
      | Returned inputs =>
          let '(m2, pq2, o2) := receive_n c n' m1 pq1 in
          (m2, pq2, outcome_bind o2 (λ rest, Returned (inputs :: rest)))
      | _ => (m1, pq1, outcome_bind o1 (λ _, Returned []))
      end
  end.

(** ** The entry points of the units *)

Module Executor.
Section Targets.
Context {V R : Type}.

(** [task.run()] belongs to [Task], which [videoflow.core.task] defines; it
    is taken as given, as a function of the process environment
    ([os.environ]) it runs under. *)
Variable run : Task V → gmap string string → R.

(** [task.run()], where [task] may be [None]. *)
Definition task_run (task : option (Task V)) (environ : gmap string string) : Exn + R :=
  match task with
  | None => inl AttributeError
  | Some t => inr (run t environ)
  end.

Definition task_executor_fn (task : option (Task V)) (environ : gmap string string)
  : gmap string string * (Exn + R) :=
  (environ, task_run task environ).

(** [str(gpu_id)] is the decimal numeral of [gpu_id]. *)
Definition task_executor_gpu_fn (task : option (Task V)) (gpu_id : Z)
    (environ : gmap string string) : gmap string string * (Exn + R) :=
  let environ := <[ "CUDA_DEVICE_ORDER" := "PCI_BUS_ID" ]> environ in
  let environ := <[ "CUDA_VISIBLE_DEVICES" := pretty gpu_id ]> environ in
  (environ, task_run task environ).

End Targets.
End Executor.

(** What a started process does: its target, called on its arguments, in
    the environment the process starts with. *)
Definition process_run {V R} (run : Task V → gmap string string → R) (p : Process V)
    (environ : gmap string string) : gmap string string * (Exn + R) :=
  match p with
  | task_executor_fn task => Executor.task_executor_fn run task environ
  | task_executor_gpu_fn task gpu_id => Executor.task_executor_gpu_fn run task gpu_id environ
  end.

(** The task step 1 of startup builds for one entry, from the dict of
    queues the environment holds. *)
Definition built {V} (self : QueueExecutionEnvironment.Env V) (data : TaskData)
    (task : option (Task V)) : Prop :=
  QueueExecutionEnvironment.new_task data
    (QueueExecutionEnvironment.new_messenger self (data_node data)
       (QueueExecutionEnvironment._task_output_queues self !! data_node_id data)
       (data_parent_node_id data
          ≫= λ p, QueueExecutionEnvironment._task_output_queues self !! p))
  = inr task.

(** The processes bound to an accelerator hold indices that are valid,
    not beyond the last one handed out, and increasing along
    [self._procs]. *)
Definition accelerators_in_order {V} (self : QueueExecutionEnvironment.Env V) : Prop :=
  -1 ≤ QueueExecutionEnvironment._next_gpu self ∧
  (∀ i p g, QueueExecutionEnvironment._procs self !! i = Some p →
     process_gpu p = Some g →
     0 ≤ g ≤ QueueExecutionEnvironment._next_gpu self ∧
     g < QueueExecutionEnvironment._nb_available_gpus self) ∧
  (∀ i j p q g h, (i < j)%nat →
     QueueExecutionEnvironment._procs self !! i = Some p →
     QueueExecutionEnvironment._procs self !! j = Some q →
     process_gpu p = Some g → process_gpu q = Some h → g < h).

(** ** More concrete pipelines *)

Module Scenarios.

(** The sink of [Examples], as a realtime messenger reading A only. *)
Definition reader_of_A : Messenger Z :=
  RealtimeQueueMessenger.__init__
    (mkNode 3 (Some [1%nat]) ConsumerNode CPU) (Some 2%nat) (Some 0%nat) (Some 0%nat).

Definition empty10 : Queue Z := new_Queue 10.

(** A transform that has received nothing yet, and its inbound channel
    holding the envelope of A. *)
Definition fresh_transform : Messenger Z :=
  BatchprocessingQueueMessenger.__init__ Examples.node_B (Some 1%nat) (Some 0%nat)
    (Some 0%nat).

(** A channel holding the envelope of A alone. *)
Definition from_A : Queue Z := mkQueue 10 [Some {[ 1%nat := 7 ]}].

(** The tasks startup builds for the pipeline of [Examples]. *)
Definition pipeline_built
  : QueueExecutionEnvironment.Env Z * World Z * (Exn + list (option (Task Z))) :=
  QueueExecutionEnvironment.create_tasks
    (QueueExecutionEnvironment.__init__ BATCH 0) Examples.pipeline Examples.empty_world.

Definition pipeline_tasks : list (option (Task Z)) :=
  match pipeline_built.2 with
  | inr tasks => tasks
  | inl _ => []
  end.

(** The accelerator pipeline of [Examples], started with two accelerators. *)
Definition gpu_run : QueueExecutionEnvironment.Env Z * World Z * Outcome Z unit :=
  QueueExecutionEnvironment._al_create_and_start_processes
    Examples.device_type Examples.change_device
    Examples.gpu_env Examples.gpu_pipeline Examples.empty_world.

Definition unit_at (i : nat) : Process Z :=
  default (task_executor_fn None) (QueueExecutionEnvironment._procs gpu_run.1.1 !! i).

(** A task body that does nothing. *)
Definition idle (t : Task Z) (environ : gmap string string) : unit := tt.

(** Like [Examples.interrupted_once] for the first two waits on each unit,
    interrupted ever after. *)
Definition interrupted_late (i k : nat) : JoinResult :=
  match i, k with
  | 1%nat, 0%nat => Interrupted
  | _, (0%nat | 1%nat) => Exits
  | _, _ => Interrupted
  end.

End Scenarios.

(** * Properties *)

(** ** Queues *)

Section QueueFacts.
Context {V : Type}.
Implicit Types (q : Queue V) (obj : envelope V) (m : Messenger V).

Lemma put_room q obj b : full q = false → put q obj b = PutOk (enqueue q obj).
Proof. unfold put. by intros ->. Qed.

Lemma put_full_blocking q obj : full q = true → put q obj true = PutWait.
Proof. unfold put. by intros ->. Qed.

Lemma put_full_nonblocking q obj : full q = true → put q obj false = PutFull.
Proof. unfold put. by intros ->. Qed.

Lemma full_false_lt q : full q = false ↔ (length (items q) < maxsize q)%nat.
Proof. unfold full. rewrite Nat.leb_gt. done. Qed.

Lemma full_true_le q : full q = true ↔ (maxsize q ≤ length (items q))%nat.
Proof. unfold full. by rewrite Nat.leb_le. Qed.

(** A [get] on a queue within its capacity leaves room for one [put]. *)
Lemma get_makes_room q x q2 :
  within_capacity q → get q = GetOk x q2 → full q2 = false.
Proof.
  unfold within_capacity, get. intros Hcap Hget.
  destruct (items q) as [|y rest] eqn:Hi; [done|].
  inversion Hget; subst. apply full_false_lt. simpl in *. lia.
Qed.

Lemma enqueue_within_capacity q obj :
  full q = false → within_capacity (enqueue q obj).
Proof.
  rewrite full_false_lt. unfold within_capacity, enqueue. simpl.
  rewrite length_app. simpl. lia.
Qed.

(** Every sending method is one [put] of [outgoing], made after the stamp. *)
Lemma send_unfold c (s : Send V) m tq :
  send c s m tq =
    match c with
    | Batchprocessing => task_queue_put (after_stamp s m) tq (outgoing s m) (blocking c s)
    | Realtime =>
        RealtimeQueueMessenger.swallowing
          (task_queue_put (after_stamp s m) tq (outgoing s m) (blocking c s))
    end.
Proof.
  destruct c, s; simpl;
    unfold BatchprocessingQueueMessenger.publish_termination_message,
      BatchprocessingQueueMessenger.passthrough_termination_message,
      BatchprocessingQueueMessenger.publish_message,
      BatchprocessingQueueMessenger.passthrough_message,
      RealtimeQueueMessenger.publish_termination_message,
      RealtimeQueueMessenger.passthrough_termination_message,
      RealtimeQueueMessenger.publish_message,
      RealtimeQueueMessenger.passthrough_message,
      after_stamp, outgoing, stamped;
    destruct (_last_message_received m) eqn:E; simpl; rewrite ?E; reflexivity.
Qed.

(** A blocking send on a queue with room enqueues and returns. *)
Lemma blocking_send_room c (s : Send V) m q :
  blocking c s = true → full q = false →
  send c s m (Some q) = (after_stamp s m, Some (enqueue q (outgoing s m)), Returned tt).
Proof.
  intros Hb Hf. rewrite send_unfold, Hb.
  unfold task_queue_put, queue_put. rewrite (put_room _ _ _ Hf).
  by destruct c.
Qed.

(** A blocking send on a full queue waits, holding its envelope. *)
Lemma blocking_send_full c (s : Send V) m q :
  blocking c s = true → full q = true →
  send c s m (Some q) = (after_stamp s m, Some q, WaitingPut (outgoing s m)).
Proof.
  intros Hb Hf. rewrite send_unfold, Hb.
  unfold task_queue_put, queue_put. rewrite (put_full_blocking _ _ Hf).
  by destruct c.
Qed.

End QueueFacts.

(** ** Sending *)

Section Sending.
Context {V : Type}.
Implicit Types (q : Queue V) (obj : envelope V) (m : Messenger V) (s : Send V).

(** While the queue has room for all of them, blocking sends all return
    and each adds one item. *)
Lemma send_all_room c (ss : list (Send V)) m q :
  Forall (λ s, blocking c s = true) ss →
  (length (items q) + length ss ≤ maxsize q)%nat →
  ∃ m' q', send_all c ss m (Some q) = (m', Some q', Returned tt) ∧
           maxsize q' = maxsize q ∧
           length (items q') = (length (items q) + length ss)%nat.
Proof.
  intros Hall. revert m q.
  induction Hall as [|s ss Hs _ IH]; intros m q Hlen; simpl in *.
  - exists m, q. repeat split; lia.
  - rewrite blocking_send_room; [|done|apply full_false_lt; lia].
    destruct (IH (after_stamp s m) (enqueue q (outgoing s m))) as (m' & q' & -> & Hm & Hl).
    { simpl. rewrite length_app. simpl. lia. }
    exists m', q'. split; [done|]. simpl in *. rewrite length_app in Hl. simpl in Hl.
    split; lia.
Qed.

(** With room in the channel every sending method, of either class,
    enqueues and returns. *)
Lemma send_room c s m q :
  full q = false →
  send c s m (Some q) = (after_stamp s m, Some (enqueue q (outgoing s m)), Returned tt).
Proof.
  intros Hf. rewrite send_unfold.
  unfold RealtimeQueueMessenger.swallowing, task_queue_put, queue_put.
  rewrite (put_room _ _ _ Hf). by destruct c.
Qed.

(** The dict a publish sends does not depend on the sends made since the
    last receive. *)
Lemma stamped_after_stamp s m (y : V) : stamped (after_stamp s m) y = stamped m y.
Proof.
  unfold after_stamp, stamped.
  destruct s, (_last_message_received m) as [d|] eqn:E; simpl; rewrite ?E; try done;
    apply insert_insert_eq.
Qed.

Lemma node_after_stamp s m : _computation_node (after_stamp s m) = _computation_node m.
Proof. unfold after_stamp. by destruct s, (_last_message_received m). Qed.

Lemma send_messenger c s m tq : (send c s m tq).1.1 = after_stamp s m.
Proof.
  rewrite send_unfold. unfold RealtimeQueueMessenger.swallowing, task_queue_put.
  destruct (queue_put tq _ _). by destruct c.
Qed.

Lemma send_all_stamped c (ss : list (Send V)) m tq (y : V) :
  stamped (send_all c ss m tq).1.1 y = stamped m y.
Proof.
  revert m tq. induction ss as [|s ss IH]; intros m tq; simpl; [done|].
  pose proof (send_messenger c s m tq) as Hm.
  destruct (send c s m tq) as [[m' tq'] [[]|e|obj|]]; simpl in *; subst m';
    rewrite ?IH; apply stamped_after_stamp.
Qed.

Lemma send_all_cons c s (ss : list (Send V)) m tq :
  send_all c (s :: ss) m tq =
    match send c s m tq with
    | (m', tq', Returned _) => send_all c ss m' tq'
    | r => r
    end.
Proof. done. Qed.

(** The messenger a sending method leaves behind, field by field. *)
Lemma after_stamp_fields s m :
  after_stamp s m
  = mkMessenger (_computation_node m) (_parent_task_queue m) (_task_queue m)
      (_parent_nodes_ids m) (_termination_event m)
      match s, _last_message_received m with
      | (publish_message_ v | publish_termination_message_ v), Some d =>
          Some (<[ id (_computation_node m) := v ]> d)
      | _, last => last
      end.
Proof.
  unfold after_stamp, stamped, set_last_message_received.
  destruct m as [node pq tq ids ev [d|]]; by destruct s.
Qed.

(** The envelope a sending method hands to [put]. *)
Lemma outgoing_fields s m :
  outgoing s m
  = match s with
    | publish_message_ v | publish_termination_message_ v =>
        Some match _last_message_received m with
             | None => {[ id (_computation_node m) := v ]}
             | Some d => <[ id (_computation_node m) := v ]> d
             end
    | _ => _last_message_received m
    end.
Proof. by destruct s. Qed.

(** What [get] takes and what it leaves. *)
Lemma get_head q head q2 :
  get q = GetOk head q2 → items q = head :: items q2 ∧ maxsize q2 = maxsize q.
Proof.
  unfold get. destruct (items q) as [|x rest]; [done|]. by intros [= <- <-].
Qed.

(** Publishes made while the channel has room: the channel gains, in order,
    one envelope per value, each the one a publish made right away would
    have sent. *)
Lemma publish_all_room c (vs : list V) m q :
  (length (items q) + length vs ≤ maxsize q)%nat →
  ∃ m', send_all c (publish_message_ <$> vs) m (Some q)
        = (m', Some (mkQueue (maxsize q)
                       (items q ++ ((λ v, Some (stamped m v)) <$> vs))),
           Returned tt) ∧
        ∀ y, stamped m' y = stamped m y.
Proof.
  revert m q. induction vs as [|v vs IH]; intros m q Hlen.
  - exists m. simpl. rewrite app_nil_r. by destruct q.
  - rewrite !fmap_cons, send_all_cons. simpl in Hlen.
    rewrite send_room by (apply full_false_lt; lia).
    assert (((λ y, Some (stamped (after_stamp (publish_message_ v) m) y)) <$> vs)
            = ((λ y, Some (stamped m y)) <$> vs)) as Hext.
    { apply list_fmap_ext. intros i y _. by rewrite stamped_after_stamp. }
    destruct (IH (after_stamp (publish_message_ v) m)
                (enqueue q (outgoing (publish_message_ v) m))) as (m' & Hrun & Hst).
    { simpl. rewrite length_app. simpl. lia. }
    exists m'. split.
    + rewrite Hrun, Hext. simpl. by rewrite <- app_assoc.
    + intros y. by rewrite Hst, stamped_after_stamp.
Qed.

(** C1. Under the lossless policy each of the four sending methods is a
    blocking enqueue.  With room, the channel afterwards is the channel
    before with the method's envelope at the back, and the call returns.
    On a full channel the call waits holding that envelope, with the
    channel untouched: it neither returns nor raises.  As soon as one item
    has been taken out the waiting [put] goes through, and the channel is
    then what was left with the envelope at the back: nothing is dropped.
    With capacity 10: ten publishes on a new, undrained channel fill it with
    their ten envelopes in order, and the eleventh waits in this way. *)
Theorem batch_sends_block (s : Send V) m q (vs : list V) (x : V) :
  within_capacity q →
  length vs = 10%nat →
  let stamp := λ v : V,
    match _last_message_received m with
    | None => {[ id (_computation_node m) := v ]}
    | Some d => <[ id (_computation_node m) := v ]> d
    end in
  let sent : envelope V :=
    match s with
    | publish_message_ v | publish_termination_message_ v => Some (stamp v)
    | _ => _last_message_received m
    end in
  let m' :=
    mkMessenger (_computation_node m) (_parent_task_queue m) (_task_queue m)
      (_parent_nodes_ids m) (_termination_event m)
      match s, _last_message_received m with
      | (publish_message_ v | publish_termination_message_ v), Some d =>
          Some (<[ id (_computation_node m) := v ]> d)
      | _, last => last
      end in
  (full q = false →
     send Batchprocessing s m (Some q)
     = (m', Some (mkQueue (maxsize q) (items q ++ [sent])), Returned tt)) ∧
  (full q = true →
     send Batchprocessing s m (Some q) = (m', Some q, WaitingPut sent) ∧
     ∀ head q2, get q = GetOk head q2 →
       items q = head :: items q2 ∧
       queue_put (Some q2) sent true
       = (Some (mkQueue (maxsize q) (items q2 ++ [sent])), Returned tt)) ∧
  let q10 := mkQueue 10 ((λ v, Some (stamp v)) <$> vs) in
  ∃ m10 m11,
    send_all Batchprocessing (publish_message_ <$> vs) m (Some (mkQueue 10 []))
    = (m10, Some q10, Returned tt) ∧
    send Batchprocessing (publish_message_ x) m10 (Some q10)
    = (m11, Some q10, WaitingPut (Some (stamp x))) ∧
    ∀ head q9, get q10 = GetOk head q9 →
      items q10 = head :: items q9 ∧
      queue_put (Some q9) (Some (stamp x)) true
      = (Some (mkQueue 10 (items q9 ++ [Some (stamp x)])), Returned tt).
Proof.
  intros Hcap Hvs stamp sent m'.
  assert (after_stamp s m = m') as Hm' by apply after_stamp_fields.
  assert (outgoing s m = sent) as Hsent by apply outgoing_fields.
  split; [|split].
  - intros Hf. rewrite blocking_send_room by done. by rewrite Hm', Hsent.
  - intros Hf. rewrite blocking_send_full by done. rewrite Hm', Hsent.
    split; [done|]. intros head q2 Hget.
    destruct (get_head _ _ _ Hget) as [Hitems Hmax]. split; [done|].
    unfold queue_put. rewrite (put_room _ _ _ (get_makes_room _ _ _ Hcap Hget)).
    unfold enqueue. by rewrite Hmax.
  - intros q10.
    destruct (publish_all_room Batchprocessing vs m (mkQueue 10 [])) as (m10 & Hrun & Hst).
    { simpl. lia. }
    simpl in Hrun. fold q10 in Hrun.
    assert (full q10 = true) as Hf.
    { apply full_true_le. subst q10. simpl. rewrite length_fmap. lia. }
    assert (within_capacity q10) as Hcap10.
    { unfold within_capacity. subst q10. simpl. rewrite length_fmap. lia. }
    assert (outgoing (publish_message_ x) m10 = Some (stamp x)) as Hout.
    { simpl. by rewrite Hst. }
    exists m10, (after_stamp (publish_message_ x) m10).
    split; [done|]. rewrite blocking_send_full, Hout by done. split; [done|].
    intros head q9 Hget. destruct (get_head _ _ _ Hget) as [Hitems Hmax].
    split; [done|]. unfold queue_put.
    rewrite (put_room _ _ _ (get_makes_room _ _ _ Hcap10 Hget)).
    unfold enqueue. by rewrite Hmax.
Qed.


(** C3. Under the lossy policy the two termination methods take the
    blocking path.  With room, the channel afterwards is the channel before
    with the method's envelope at the back, and the call returns.  On a
    full channel the call waits holding that envelope, the channel
    untouched; nothing is discarded, and as soon as one item has been taken
    out the waiting [put] goes through, leaving what was left with the
    envelope at the back. *)
Theorem realtime_termination_blocks s m q :
  within_capacity q →
  (∃ message, s = publish_termination_message_ message) ∨ s = passthrough_termination_message_ →
  let sent : envelope V :=
    match s with
    | publish_message_ v | publish_termination_message_ v =>
        Some match _last_message_received m with
             | None => {[ id (_computation_node m) := v ]}
             | Some d => <[ id (_computation_node m) := v ]> d
             end
    | _ => _last_message_received m
    end in
  let m' :=
    mkMessenger (_computation_node m) (_parent_task_queue m) (_task_queue m)
      (_parent_nodes_ids m) (_termination_event m)
      match s, _last_message_received m with
      | (publish_message_ v | publish_termination_message_ v), Some d =>
          Some (<[ id (_computation_node m) := v ]> d)
      | _, last => last
      end in
  (full q = false →
     send Realtime s m (Some q)
     = (m', Some (mkQueue (maxsize q) (items q ++ [sent])), Returned tt)) ∧
  (full q = true →
     send Realtime s m (Some q) = (m', Some q, WaitingPut sent) ∧
     ∀ head q2, get q = GetOk head q2 →
       items q = head :: items q2 ∧
       queue_put (Some q2) sent true
       = (Some (mkQueue (maxsize q) (items q2 ++ [sent])), Returned tt)).
Proof.
  intros Hcap Hs sent m'.
  assert (blocking Realtime s = true) as Hb by (destruct Hs as [[? ->] | ->]; done).
  assert (after_stamp s m = m') as Hm' by apply after_stamp_fields.
  assert (outgoing s m = sent) as Hsent by apply outgoing_fields.
  split.
  - intros Hf. rewrite blocking_send_room by done. by rewrite Hm', Hsent.
  - intros Hf. rewrite blocking_send_full by done. rewrite Hm', Hsent.
    split; [done|]. intros head q2 Hget.
    destruct (get_head _ _ _ Hget) as [Hitems Hmax]. split; [done|].
    unfold queue_put. rewrite (put_room _ _ _ (get_makes_room _ _ _ Hcap Hget)).
    unfold enqueue. by rewrite Hmax.
Qed.

(** C4. In both classes [publish_message], when nothing has been received,
    puts at the back of the channel a fresh dict with the single entry
    own id ↦ value and leaves the messenger as it was; otherwise it writes
    the value under the own id into the last-received dict, every other
    entry as it was, keeps that dict as the last received, and puts it at
    the back of the channel. *)
Theorem publish_stamps_envelope c m (message : V) q :
  full q = false →
  let own := id (_computation_node m) in
  match _last_message_received m with
  | None =>
      send c (publish_message_ message) m (Some q)
      = (m, Some (mkQueue (maxsize q) (items q ++ [Some {[ own := message ]}])),
         Returned tt) ∧
      ∀ k, ({[ own := message ]} : gmap node_id V) !! k
           = if decide (k = own) then Some message else None
  | Some d =>
      send c (publish_message_ message) m (Some q)
      = (mkMessenger (_computation_node m) (_parent_task_queue m) (_task_queue m)
           (_parent_nodes_ids m) (_termination_event m)
           (Some (<[ own := message ]> d)),
         Some (mkQueue (maxsize q) (items q ++ [Some (<[ own := message ]> d)])),
         Returned tt) ∧
      (<[ own := message ]> d) !! own = Some message ∧
      ∀ k, k ≠ own → (<[ own := message ]> d) !! k = d !! k
  end.
Proof.
  intros Hf own.
  pose proof (send_room c (publish_message_ message) m q Hf) as Hsend.
  rewrite after_stamp_fields, outgoing_fields in Hsend. unfold enqueue in Hsend.
  destruct (_last_message_received m) as [d|] eqn:E.
  - split; [exact Hsend|]. split.
    + apply lookup_insert_eq.
    + intros k Hk. by apply lookup_insert_ne.
  - split.
    + rewrite Hsend. destruct m. simpl in *. by subst.
    + intros k. case_decide as Hk.
      * subst. apply lookup_singleton_eq.
      * by apply lookup_singleton_ne.
Qed.

End Sending.

(** ** Receiving *)

Section Receiving.
Context {V : Type}.
Implicit Types (q : Queue V) (input : envelope V) (m : Messenger V).

Lemma index_all_present input (ids : list node_id) (vs : list V) :
  Forall2 (λ a v, ∃ d, input = Some d ∧ d !! a = Some v) ids vs →
  index_all input ids = inr vs.
Proof.
  induction 1 as [|a v ids vs (d & -> & Ha) _ IH]; simpl; [done|].
  by rewrite Ha, IH.
Qed.

Lemma index_all_absent input (ids : list node_id) a :
  a ∈ ids → input ≫= (λ d : gmap node_id V, d !! a) = None →
  ∃ e, index_all input ids = inl e.
Proof.
  intros Hin Hnone. induction ids as [|b ids IH]; [by apply elem_of_nil in Hin|].
  simpl. destruct input as [d|]; [|by eexists].
  simpl in Hnone. destruct (d !! b) as [v|] eqn:Hb; [|by eexists].
  apply elem_of_cons in Hin as [->|Hin]; [congruence|].
  destruct (IH Hin) as [e ->]. by eexists.
Qed.

Lemma receive_unfold c m pq :
  receive c m pq = BatchprocessingQueueMessenger.receive_message m pq.
Proof. by destruct c. Qed.

(** C5. In both classes [receive_message] waits while the inbound channel is
    empty; otherwise it takes the first envelope off the channel, leaves
    the messenger with that envelope as [_last_message_received] and its
    other fields as they were, and returns the values found under the
    parent ids, in the order of the parent ids.  When some parent id is not
    in the envelope the call raises: there is no partial result. *)
Theorem receive_message_reads_parents c m q :
  (items q = [] → receive c m (Some q) = (m, Some q, WaitingGet)) ∧
  ∀ input rest, items q = input :: rest →
    let m' :=
      mkMessenger (_computation_node m) (_parent_task_queue m) (_task_queue m)
        (_parent_nodes_ids m) (_termination_event m) input in
    let q' := mkQueue (maxsize q) rest in
    _last_message_received m' = input ∧
    (∀ vs, Forall2 (λ a v, ∃ d, input = Some d ∧ d !! a = Some v) (_parent_nodes_ids m) vs →
       receive c m (Some q) = (m', Some q', Returned vs)) ∧
    (∀ a, a ∈ _parent_nodes_ids m →
       input ≫= (λ d : gmap node_id V, d !! a) = None →
       ∃ e, receive c m (Some q) = (m', Some q', Raised e)).
Proof.
  rewrite receive_unfold. unfold BatchprocessingQueueMessenger.receive_message, get. split.
  - by intros ->.
  - intros input rest Hi. rewrite Hi. simpl. split; [done|]. split.
    + intros vs Hvs. by rewrite (index_all_present _ _ _ Hvs).
    + intros a Hin Hnone. destruct (index_all_absent _ _ _ Hin Hnone) as [e ->].
      by exists e.
Qed.

(** C10. With no envelope received, [passthrough_message] (and, in the lossy
    class, [passthrough_termination_message]) does not fail and does not
    skip the [put]: it enqueues [None].  The task reading that channel
    then gets [None] as its envelope, which cannot be indexed. *)
Theorem passthrough_before_receive m q :
  _last_message_received m = None →
  full q = false →
  BatchprocessingQueueMessenger.passthrough_message m (Some q)
  = (m, Some (enqueue q None), Returned tt) ∧
  BatchprocessingQueueMessenger.passthrough_termination_message m (Some q)
  = (m, Some (enqueue q None), Returned tt) ∧
  RealtimeQueueMessenger.passthrough_message m (Some q)
  = (m, Some (enqueue q None), Returned tt) ∧
  RealtimeQueueMessenger.passthrough_termination_message m (Some q)
  = (m, Some (enqueue q None), Returned tt) ∧
  ∀ c (reader : Messenger V) n rest,
    receive c reader (Some (mkQueue n (None :: rest)))
    = (set_last_message_received reader None, Some (mkQueue n rest),
       match _parent_nodes_ids reader with
       | [] => Returned []
       | _ :: _ => Raised TypeError
       end).
Proof.
  intros Hnone Hf.
  unfold BatchprocessingQueueMessenger.passthrough_termination_message,
    BatchprocessingQueueMessenger.passthrough_message,
    RealtimeQueueMessenger.passthrough_message,
    RealtimeQueueMessenger.passthrough_termination_message,
    RealtimeQueueMessenger.swallowing, task_queue_put, queue_put.
  rewrite Hnone, !(put_room _ _ _ Hf). simpl. repeat split.
  intros c reader n rest. rewrite receive_unfold.
  unfold BatchprocessingQueueMessenger.receive_message, get. simpl.
  by destruct (_parent_nodes_ids reader).
Qed.

End Receiving.

(** ** Order of the startup log *)

Lemma phase_sorted_app (A B : list Ev) :
  phase_sorted A → phase_sorted B →
  (∀ a b, a ∈ A → b ∈ B → (phase a ≤ phase b)%nat) →
  phase_sorted (A ++ B).
Proof.
  intros HA HB HAB i j a b Hi Hj Hij.
  apply lookup_app_Some in Hi as [Hi|[Hi1 Hi2]];
    apply lookup_app_Some in Hj as [Hj|[Hj1 Hj2]].
  - by apply (HA i j).
  - apply HAB; by eapply list_elem_of_lookup_2.
  - apply lookup_lt_Some in Hj. lia.
  - apply (HB (i - length A)%nat (j - length A)%nat); [done|done|lia].
Qed.

Lemma phase_sorted_const (k : nat) (L : list Ev) :
  Forall (λ ev, phase ev = k) L → phase_sorted L.
Proof.
  intros HF i j a b Hi Hj _.
  rewrite Forall_forall in HF.
  rewrite (HF a), (HF b); [done| |]; by eapply list_elem_of_lookup_2.
Qed.

Lemma phase_sorted_precedes (P Q : Ev → bool) (L : list Ev) :
  phase_sorted L →
  (∀ a b, P a = true → Q b = true → (phase a < phase b)%nat) →
  precedes P Q L.
Proof.
  intros HL HPQ i j a b Hi Hj Ha Hb.
  destruct (decide (i < j)%nat) as [|Hge]; [done|].
  pose proof (HL j i b a Hj Hi ltac:(lia)). pose proof (HPQ a b Ha Hb). lia.
Qed.

Lemma Forall_phase (P : Ev → bool) (k : nat) (L : list Ev) :
  (∀ ev, P ev = true → phase ev = k) →
  Forall (λ ev, P ev = true) L → Forall (λ ev, phase ev = k) L.
Proof. intros HP HF. eapply Forall_impl; [done|auto]. Qed.

(** ** Startup *)

Section Startup.
Context {V : Type}.
Variable device_type : Task V → Device.
Variable change_device : Task V → Device → option (Task V).
Import QueueExecutionEnvironment.
Implicit Types (self : Env V) (w : World V) (tasks : list (option (Task V))).

Local Abbreviation create_processes := (create_processes device_type change_device).
Local Abbreviation create_process := (create_process device_type change_device).
Local Abbreviation create_and_start := (create_and_start device_type change_device).
Local Abbreviation _al_create_and_start_processes :=
  (_al_create_and_start_processes device_type change_device).
Local Abbreviation requests_gpu := (requests_gpu device_type).
Local Abbreviation gpu_rank := (gpu_rank device_type).

(** Step 0 creates one queue per entry and nothing else. *)
Lemma create_output_queues_spec (tasks_data : list TaskData) self w :
  let r := create_output_queues tasks_data self w in
  events r.2 = events w ∧
  (∃ Q, log r.2 = log w ++ Q ∧ Forall (λ ev, is_channel_setup ev = true) Q ∧
        length Q = length tasks_data ∧
        ∀ data, data ∈ tasks_data → ∃ q, QueueCreated (data_node_id data) q ∈ Q) ∧
  _procs r.1 = _procs self ∧ _next_gpu r.1 = _next_gpu self ∧
  _nb_available_gpus r.1 = _nb_available_gpus self ∧
  _flow_type r.1 = _flow_type self.
Proof.
  revert self w. induction tasks_data as [|data rest IH]; intros self w; simpl.
  - repeat split; try done. exists []. rewrite app_nil_r. repeat split; try done.
    intros data Hin. by apply elem_of_nil in Hin.
  - destruct (IH (set_task_output_queues self
                    (<[data_node_id data:=length (queues w)]> (_task_output_queues self)))
                 (emit (mkWorld (queues w ++ [new_Queue 10]) (events w) (log w))
                    [QueueCreated (data_node_id data) (length (queues w))]))
      as (He & (Q & HQ & HF & HL & Hall) & Hp & Hg & Hn & Hf).
    simpl in *. repeat split; try done.
    exists (QueueCreated (data_node_id data) (length (queues w)) :: Q).
    rewrite HQ, <- app_assoc. simpl. split; [done|]. split; [by constructor|].
    split; [lia|].
    intros d [->|Hin]%elem_of_cons.
    + eexists. apply elem_of_cons. by left.
    + destruct (Hall d Hin) as [q Hq]. exists q. apply elem_of_cons. by right.
Qed.

(** Step 1 builds messengers and tasks and nothing else. *)
Lemma initialize_tasks_spec (tasks_data : list TaskData) self w tasks :
  let r := initialize_tasks tasks_data self w tasks in
  events r.1 = events w ∧
  (∃ C, log r.1 = log w ++ C ∧ Forall (λ ev, is_construction ev = true) C) ∧
  ∀ tasks', r.2 = inr tasks' → length tasks' = (length tasks + length tasks_data)%nat.
Proof.
  revert w tasks. induction tasks_data as [|data rest IH]; intros w tasks; simpl.
  - repeat split; [|intros ? [= <-]; lia]. exists []. by rewrite app_nil_r.
  - set (ms := new_messenger self _ _ _).
    set (w1 := emit w _).
    assert (∃ C1, log w1 = log w ++ C1 ∧ Forall (λ ev, is_construction ev = true) C1)
      as (C1 & HC1 & HF1).
    { subst w1. destruct ms; simpl; eexists; split; try done; by repeat constructor. }
    destruct (new_task data ms) as [e|task]; simpl.
    + repeat split; [by exists C1|done].
    + set (w2 := emit w1 _).
      assert (∃ C2, log w2 = log w1 ++ C2 ∧ Forall (λ ev, is_construction ev = true) C2)
        as (C2 & HC2 & HF2).
      { subst w2. destruct task; simpl; eexists; split; try done; by repeat constructor. }
      destruct (IH w2 (tasks ++ [task])) as (He & (C & HC & HF) & Hlen).
      repeat split.
      * by rewrite He.
      * exists (C1 ++ C2 ++ C). rewrite HC, HC2, HC1, <- !app_assoc. split; [done|].
        by rewrite !Forall_app.
      * intros tasks' Hr. rewrite (Hlen _ Hr), length_app. simpl. lia.
Qed.

(** The body of the step 2 loop touches [_next_gpu] only, and
    [RuntimeError] is the one exception it raises. *)
Lemma create_process_spec task self :
  let r := create_process task self in
  _procs r.1 = _procs self ∧ _nb_available_gpus r.1 = _nb_available_gpus self ∧
  _termination_event r.1 = _termination_event self ∧
  ∀ e, r.2 = inl e → e = RuntimeError.
Proof.
  unfold QueueExecutionEnvironment.create_process.
  destruct task as [t|]; [|done].
  destruct (is_ProcessorTask (Some t)); [|done].
  destruct (device_type t); [|done].
  simpl. destruct (_ <? _); [done|].
  destruct (change_device t CPU); [done|].
  repeat split. by intros e [= <-].
Qed.

(** Step 2 appends processes to [self._procs], one per task for as long
    as no task fails, and logs each. *)
Lemma create_processes_spec tasks self w :
  let r := create_processes tasks self w in
  events r.1.2 = events w ∧
  _nb_available_gpus r.1.1 = _nb_available_gpus self ∧
  _termination_event r.1.1 = _termination_event self ∧
  ∃ ps, _procs r.1.1 = _procs self ++ ps ∧
        log r.1.2 = log w ++ (ProcessCreated <$> seq (length (_procs self)) (length ps)) ∧
        (r.2 = Returned tt ∧ length ps = length tasks ∨ r.2 = Raised RuntimeError).
Proof.
  revert self w. induction tasks as [|task rest IH]; intros self w; simpl.
  - split; [done|]. split; [done|]. split; [done|].
    exists []. rewrite !app_nil_r. split; [done|]. split; [done|]. by left.
  - destruct (create_process_spec task self) as (Hp & Hn & Ht & He).
    destruct (create_process task self) as [self1 [e|proc]]; simpl in *.
    + split; [done|]. split; [done|]. split; [done|].
      exists []. rewrite !app_nil_r. split; [done|]. split; [done|].
      right. by rewrite (He e).
    + rewrite Hp.
      destruct (IH (set_procs self1 (_procs self ++ [proc]))
                  (emit w [ProcessCreated (length (_procs self))]))
        as (He' & Hn' & Ht' & ps & Hps & Hlog & Hout).
      simpl in *. split; [done|]. split; [congruence|]. split; [congruence|].
      exists (proc :: ps). rewrite Hps, Hlog, <- !app_assoc.
      rewrite length_app. simpl. rewrite Nat.add_1_r. split; [done|]. split; [done|].
      destruct Hout as [[Ho Hl] | Ho]; [left; split; [done|lia] | by right].
Qed.


(** Step 3 starts what is in [self._procs], in order. *)
Lemma start_processes_log self w :
  log (start_processes self w)
  = log w ++ (ProcessStarted <$> seq 0 (length (_procs self))).
Proof. unfold start_processes. simpl. by rewrite imap_seq_0. Qed.

(** Steps 2 and 3 together. *)
Lemma create_and_start_spec tasks self w :
  let r := create_and_start tasks self w in
  events r.1.2 = events w ∧
  _nb_available_gpus r.1.1 = _nb_available_gpus self ∧
  _termination_event r.1.1 = _termination_event self ∧
  ∃ ps S, _procs r.1.1 = _procs self ++ ps ∧
          log r.1.2
          = log w ++ (ProcessCreated <$> seq (length (_procs self)) (length ps)) ++ S ∧
          (r.2 = Returned tt ∧ length ps = length tasks ∧
             S = ProcessStarted <$> seq 0 (length (_procs self) + length tasks)
           ∨ r.2 = Raised RuntimeError ∧ S = []).
Proof.
  unfold QueueExecutionEnvironment.create_and_start.
  destruct (create_processes_spec tasks self w) as (He & Hn & Ht & ps & Hps & Hlog & Hout).
  destruct (create_processes tasks self w) as [[self3 w4] o]. simpl in *.
  destruct Hout as [[-> Hlen] | ->]; simpl.
  - split; [done|]. split; [done|]. split; [done|].
    exists ps, (ProcessStarted <$> seq 0 (length (_procs self) + length tasks)).
    split; [done|]. split; [|by left].
    rewrite imap_seq_0, Hlog, Hps, length_app, Hlen, <- app_assoc. done.
  - split; [done|]. split; [done|]. split; [done|].
    exists ps, []. split; [done|]. rewrite app_nil_r. split; [done|]. by right.
Qed.

(** The whole of [_al_create_and_start_processes]. *)
Lemma startup_spec self (tasks_data : list TaskData) w :
  let r := _al_create_and_start_processes self tasks_data w in
  events r.1.2 = events w ++ [false] ∧
  _termination_event r.1.1 = Some (length (events w)) ∧
  ∃ Q C ps S,
    log r.1.2
    = log w ++ Q ++ C ++ (ProcessCreated <$> seq (length (_procs self)) (length ps)) ++ S ∧
    Forall (λ ev, is_channel_setup ev = true) Q ∧
    (∀ data, data ∈ tasks_data → ∃ q, QueueCreated (data_node_id data) q ∈ Q) ∧
    Forall (λ ev, is_construction ev = true) C ∧
    _procs r.1.1 = _procs self ++ ps ∧
    (r.2 = Returned tt ∧ length ps = length tasks_data ∧
       S = ProcessStarted <$> seq 0 (length (_procs self) + length tasks_data)
     ∨ (∃ e, r.2 = Raised e) ∧ S = []).
Proof.
  unfold QueueExecutionEnvironment._al_create_and_start_processes,
    QueueExecutionEnvironment.create_tasks.
  destruct (create_output_queues_spec tasks_data self w)
    as (He & (Q & HQ & HFQ & HLQ & HallQ) & Hp & Hg & Hn & Hf).
  destruct (create_output_queues tasks_data self w) as [self1 w1]. simpl in *.
  set (self2 := set_termination_event self1 _).
  set (w2 := emit _ _).
  assert (events w2 = events w ++ [false]) as Hev2 by (subst w2; simpl; by rewrite He).
  assert (_termination_event self2 = Some (length (events w))) as Hte2
    by (subst self2; simpl; by rewrite He).
  assert (_procs self2 = _procs self) as Hp2 by done.
  assert (log w2 = log w ++ Q ++ [EventCreated (length (events w1))]) as Hlog2
    by (subst w2; simpl; by rewrite HQ, <- app_assoc).
  assert (Forall (λ ev, is_channel_setup ev = true)
            (Q ++ [EventCreated (length (events w1))])) as HFQ'.
  { apply Forall_app. split; [done|]. by repeat constructor. }
  assert (∀ data, data ∈ tasks_data →
            ∃ q, QueueCreated (data_node_id data) q
                 ∈ Q ++ [EventCreated (length (events w1))]) as HallQ'.
  { intros data Hin. destruct (HallQ data Hin) as [q Hq]. exists q.
    apply elem_of_app. by left. }
  clearbody self2 w2.
  destruct (initialize_tasks_spec tasks_data self2 w2 []) as (He2 & (C & HC & HFC) & Hlen).
  destruct (initialize_tasks tasks_data self2 w2 []) as [w3 [e|tasks]]; simpl in *.
  - split; [by rewrite He2|]. split; [done|].
    rewrite <- Hp2.
    exists (Q ++ [EventCreated (length (events w1))]), C, [], [].
    simpl. rewrite !app_nil_r, HC, Hlog2, <- !app_assoc.
    split; [done|]. split; [done|]. split; [done|].
    split; [done|]. split; [done|]. right. split; [by exists e|done].
  - destruct (create_and_start_spec tasks self2 w3)
      as (He3 & Hn3 & Ht3 & ps & S & Hps & Hlog & Hout).
    specialize (Hlen tasks eq_refl). simpl in Hlen.
    split; [by rewrite He3, He2|]. split; [by rewrite Ht3|].
    rewrite <- Hp2.
    exists (Q ++ [EventCreated (length (events w1))]), C, ps, S.
    rewrite Hlog, HC, Hlog2, Hps, <- !app_assoc.
    split; [done|]. split; [done|]. split; [done|].
    split; [done|]. split; [done|].
    destruct Hout as [(-> & Hl & ->) | (-> & ->)].
    + left. rewrite Hlen. split; [done|]. split; [lia|done].
    + right. split; [by eexists|done].
Qed.


(** ** Accelerators *)

Lemma gpu_rank_0 task tasks :
  gpu_rank (task :: tasks) 0 = if requests_gpu task then 1%nat else 0%nat.
Proof.
  unfold QueueExecutionEnvironment.gpu_rank. simpl. rewrite take_0.
  destruct (requests_gpu task) eqn:E.
  - rewrite filter_cons_True; done.
  - rewrite filter_cons_False; [done|]. by rewrite E.
Qed.

Lemma gpu_rank_S task tasks j :
  gpu_rank (task :: tasks) (S j)
  = ((if requests_gpu task then 1 else 0) + gpu_rank tasks j)%nat.
Proof.
  unfold QueueExecutionEnvironment.gpu_rank. simpl.
  destruct (requests_gpu task) eqn:E.
  - rewrite filter_cons_True; done.
  - rewrite filter_cons_False; [done|]. by rewrite E.
Qed.

(** The body of the step 2 loop, by whether the task asks for an
    accelerator. *)
Lemma create_process_requests task self :
  create_process task self =
    if requests_gpu task then
      let self1 := set_next_gpu self (_next_gpu self + 1) in
      if _next_gpu self + 1 <? _nb_available_gpus self then
        (self1, inr (create_process_task_gpu task (_next_gpu self + 1)))
      else
        match task ≫= λ t, change_device t CPU with
        | Some t' => (self1, inr (create_process_task (Some t')))
        | None => (self1, inl RuntimeError)
        end
    else (self, inr (create_process_task task)).
Proof.
  unfold QueueExecutionEnvironment.create_process, QueueExecutionEnvironment.requests_gpu.
  destruct task as [t|]; [|done].
  destruct (is_ProcessorTask (Some t)); [|done]. simpl.
  by destruct (device_type t).
Qed.

(** What step 2 gives each task, for any starting value of [_next_gpu]. *)
Lemma create_processes_assign tasks self w j task :
  (create_processes tasks self w).2 = Returned tt →
  tasks !! j = Some task →
  ∃ p, _procs (create_processes tasks self w).1.1 !! (length (_procs self) + j)%nat = Some p ∧
    if requests_gpu task then
      if decide (_next_gpu self + Z.of_nat (gpu_rank tasks j) < _nb_available_gpus self) then
        p = create_process_task_gpu task (_next_gpu self + Z.of_nat (gpu_rank tasks j))
      else
        ∃ t t', task = Some t ∧ change_device t CPU = Some t' ∧
                p = create_process_task (Some t')
    else p = create_process_task task.
Proof.
  revert self w j. induction tasks as [|task0 rest IH]; intros self w j Hret Hj; [done|].
  simpl in *.
  destruct (create_process_spec task0 self) as (Hp & Hn & _ & _).
  pose proof (create_process_requests task0 self) as Hcp.
  destruct (create_process task0 self) as [self1 [e|proc]] eqn:Hcreate; [done|].
  simpl in Hp, Hn.
  set (self2 := set_procs self1 (_procs self1 ++ [proc])) in *.
  set (w2 := emit w _) in *.
  destruct (create_processes_spec rest self2 w2) as (_ & _ & _ & ps & Hps & _).
  destruct j as [|j].
  - (* the task at the head *)
    injection Hj as <-. exists proc. split.
    { rewrite Hps. subst self2. simpl. rewrite Hp, Nat.add_0_r, <- app_assoc.
      by rewrite lookup_app_r, Nat.sub_diag. }
    rewrite gpu_rank_0.
    destruct (requests_gpu task0); [|congruence].
    simpl in Hcp. change (Z.of_nat 1) with 1.
    destruct (_next_gpu self + 1 <? _nb_available_gpus self) eqn:Hlt.
    + apply Z.ltb_lt in Hlt. rewrite decide_True by done. congruence.
    + apply Z.ltb_ge in Hlt. rewrite decide_False by lia.
      destruct task0 as [t|]; simpl in Hcp; [|done].
      destruct (change_device t CPU) as [t'|] eqn:Hcd; [|done].
      exists t, t'. repeat split; [done|congruence].
  - (* a task of the rest *)
    assert (_nb_available_gpus self2 = _nb_available_gpus self) as Hnb by done.
    assert (_next_gpu self2 = _next_gpu self + (if requests_gpu task0 then 1 else 0))
      as Hg.
    { subst self2. simpl. destruct (requests_gpu task0).
      - simpl in Hcp.
        destruct (_next_gpu self + 1 <? _nb_available_gpus self);
          [by injection Hcp as -> _|].
        destruct (task0 ≫= _); [by injection Hcp as -> _|done].
      - injection Hcp as -> _. lia. }
    assert (length (_procs self2) = S (length (_procs self))) as Hl.
    { subst self2. simpl. rewrite length_app, Hp. simpl. lia. }
    clearbody self2 w2.
    destruct (IH self2 w2 j Hret Hj) as (p & Hlook & Hassigned).
    exists p. split.
    { rewrite <- Hlook. f_equal. lia. }
    rewrite gpu_rank_S. rewrite Hnb, Hg in Hassigned.
    destruct (requests_gpu task); [|done].
    destruct (requests_gpu task0);
      [ replace (_next_gpu self + Z.of_nat (1 + gpu_rank rest j))
          with (_next_gpu self + 1 + Z.of_nat (gpu_rank rest j)) by lia
      | replace (_next_gpu self + Z.of_nat (0 + gpu_rank rest j))
          with (_next_gpu self + 0 + Z.of_nat (gpu_rank rest j)) by lia ];
      done.
Qed.

(** Step 2 raises as soon as a task that finds no accelerator left cannot
    be moved to the CPU. *)
Lemma create_processes_refused tasks self w j t :
  tasks !! j = Some (Some t) →
  requests_gpu (Some t) = true →
  _nb_available_gpus self ≤ _next_gpu self + Z.of_nat (gpu_rank tasks j) →
  change_device t CPU = None →
  (create_processes tasks self w).2 = Raised RuntimeError.
Proof.
  revert self w j. induction tasks as [|task0 rest IH]; intros self w j Hj Hreq Hk Hcd; [done|].
  simpl.
  destruct (create_process_spec task0 self) as (Hp & Hn & _ & He).
  pose proof (create_process_requests task0 self) as Hcp.
  destruct (create_process task0 self) as [self1 [e|proc]] eqn:Hcreate.
  { by rewrite (He e). }
  simpl in Hp, Hn.
  destruct j as [|j].
  - injection Hj as ->. rewrite gpu_rank_0, Hreq in Hk. rewrite Hreq in Hcp. simpl in Hcp.
    rewrite Hcd in Hcp.
    destruct (_next_gpu self + 1 <? _nb_available_gpus self) eqn:Hlt; [|done].
    apply Z.ltb_lt in Hlt. lia.
  - apply (IH _ _ j); [done|done| |done]. simpl.
    rewrite gpu_rank_S in Hk. rewrite Hn.
    destruct (requests_gpu task0).
    + simpl in Hcp.
      destruct (_next_gpu self + 1 <? _nb_available_gpus self);
        [injection Hcp as -> _; simpl; lia|].
      destruct (task0 ≫= _); [injection Hcp as -> _; simpl; lia|done].
    + injection Hcp as -> _. lia.
Qed.

(** A startup that does not return has started nothing. *)
Lemma startup_failed_not_started self (tasks_data : list TaskData) w :
  let r := _al_create_and_start_processes self tasks_data w in
  r.2 ≠ Returned tt →
  ∃ L, log r.1.2 = log w ++ L ∧ ∀ i, ProcessStarted i ∉ L.
Proof.
  intros r Hnot.
  destruct (startup_spec self tasks_data w)
    as (_ & _ & Q & C & ps & S & Hlog & HFQ & _ & HFC & _ & Hout).
  fold r in Hlog, Hout.
  destruct Hout as [(Hret & _) | (_ & ->)]; [done|].
  eexists. split; [exact Hlog|].
  intros i Hin. rewrite Forall_forall in HFQ, HFC.
  rewrite app_nil_r, !elem_of_app in Hin.
  destruct Hin as [Hin|[Hin|Hin]].
  - by pose proof (HFQ _ Hin).
  - by pose proof (HFC _ Hin).
  - by apply list_elem_of_fmap in Hin as (? & ? & _).
Qed.

(** Steps 0 and 1 leave the process list and the accelerator counters alone. *)
Lemma create_tasks_spec self (tasks_data : list TaskData) w :
  let r := create_tasks self tasks_data w in
  _procs r.1.1 = _procs self ∧ _next_gpu r.1.1 = _next_gpu self ∧
  _nb_available_gpus r.1.1 = _nb_available_gpus self.
Proof.
  unfold QueueExecutionEnvironment.create_tasks.
  destruct (create_output_queues_spec tasks_data self w) as (_ & _ & Hp & Hg & Hn & _).
  destruct (create_output_queues tasks_data self w) as [self1 w1]. simpl in *.
  by destruct (initialize_tasks _ _ _ _).
Qed.


(** ** Termination *)

Local Abbreviation step := (step device_type change_device).

Lemma is_set_lt (evs : list bool) e : is_set evs e = true → (e < length evs)%nat.
Proof.
  unfold is_set. intros H. apply lookup_lt_is_Some.
  destruct (evs !! e); [by eexists|done].
Qed.

Lemma is_set_app (evs more : list bool) e :
  is_set evs e = true → is_set (evs ++ more) e = true.
Proof.
  intros H. pose proof (is_set_lt _ _ H). unfold is_set in *.
  by rewrite lookup_app_l.
Qed.

Lemma is_set_insert (evs : list bool) e e' :
  is_set evs e = true → is_set (<[ e' := true ]> evs) e = true.
Proof.
  intros H. pose proof (is_set_lt _ _ H). unfold is_set in *.
  destruct (decide (e' = e)) as [->|Hne].
  - by rewrite list_lookup_insert_eq.
  - by rewrite list_lookup_insert_ne.
Qed.

Lemma store_events w r (q : option (Queue V)) : events (store w r q) = events w.
Proof. by destruct r, q. Qed.

Lemma call_send_events c (s : Send V) m w : events (call_send c s m w).1.2 = events w.
Proof.
  unfold call_send. destruct (send c s m _) as [[m' tq'] o]. simpl. apply store_events.
Qed.

Lemma call_receive_events c (m : Messenger V) w :
  events (call_receive c m w).1.2 = events w.
Proof.
  unfold call_receive. destruct (receive c m _) as [[m' pq'] o]. simpl. apply store_events.
Qed.

(** No operation unsets an event, and no operation removes one. *)
Lemma step_keeps_set w w' e :
  step w w' →
  (is_set (events w) e = true → is_set (events w') e = true) ∧
  (length (events w) ≤ length (events w'))%nat.
Proof.
  destruct 1 as [c s m w|c m w|c m w|self tasks_data w|self w|self join w].
  - by rewrite call_send_events.
  - by rewrite call_receive_events.
  - done.
  - destruct (startup_spec self tasks_data w) as (-> & _).
    split; [apply is_set_app|]. rewrite length_app. lia.
  - unfold signal_flow_termination. destruct (_termination_event self) as [e'|]; [|done].
    simpl. split; [apply is_set_insert|]. by rewrite length_insert.
  - done.
Qed.

Lemma steps_keep_set w w' e :
  rtc step w w' →
  (is_set (events w) e = true → is_set (events w') e = true) ∧
  (length (events w) ≤ length (events w'))%nat.
Proof.
  induction 1 as [w|w w1 w' Hstep _ [IHset IHlen]]; [done|].
  destruct (step_keeps_set _ _ e Hstep) as [Hset Hlen]. split; [auto|lia].
Qed.

(** No sending or receiving method reassigns [self._termination_event]. *)
Lemma send_keeps_event c (s : Send V) m tq :
  QueueMessenger._termination_event (send c s m tq).1.1
  = QueueMessenger._termination_event m.
Proof.
  rewrite send_unfold. unfold RealtimeQueueMessenger.swallowing, task_queue_put.
  destruct (queue_put tq _ _) as [tq' o].
  assert (QueueMessenger._termination_event (after_stamp s m)
          = QueueMessenger._termination_event m) as <-.
  { unfold after_stamp. by destruct s, (_last_message_received m). }
  by destruct c.
Qed.

Lemma receive_keeps_event c (m : Messenger V) pq :
  QueueMessenger._termination_event (receive c m pq).1.1
  = QueueMessenger._termination_event m.
Proof.
  rewrite receive_unfold. unfold BatchprocessingQueueMessenger.receive_message.
  destruct pq as [q|]; [|done]. destruct (get q); [|done].
  by destruct (index_all _ _).
Qed.

(** C7. The event a startup creates is unset.  [signal_flow_termination]
    sets it.  No operation of a messenger or of the environment unsets an
    event, so after the signal [check_for_termination] answers true for every
    messenger holding that event, after any further operations; and no
    method of a messenger changes which event it holds. *)
Theorem termination_is_monotonic self0 (tasks_data : list TaskData) w0 w1 w2 c
    (m : Messenger V) :
  let r := _al_create_and_start_processes self0 tasks_data w0 in
  let self := r.1.1 in
  rtc step r.1.2 w1 →
  rtc step (signal_flow_termination self w1).1 w2 →
  QueueMessenger._termination_event m = _termination_event self →
  (∃ e, _termination_event self = Some e ∧ is_set (events r.1.2) e = false) ∧
  (signal_flow_termination self w1).2 = Returned tt ∧
  check_for_termination c m (events (signal_flow_termination self w1).1) = Returned true ∧
  check_for_termination c m (events w2) = Returned true ∧
  (∀ w3, rtc step w2 w3 → check_for_termination c m (events w3) = Returned true) ∧
  (∀ node tq pq c' m',
     new_messenger self node tq pq = Some (c', m') →
     QueueMessenger._termination_event m' = _termination_event self) ∧
  (∀ c' s tq, QueueMessenger._termination_event (send c' s m tq).1.1
              = QueueMessenger._termination_event m) ∧
  (∀ c' pq, QueueMessenger._termination_event (receive c' m pq).1.1
            = QueueMessenger._termination_event m).
Proof.
  intros r self Hbefore Hafter Hm.
  destruct (startup_spec self0 tasks_data w0) as (Hev & Hte & _).
  fold r in Hev, Hte. fold self in Hte.
  set (e := length (events w0)) in *.
  assert (is_set (events r.1.2) e = false) as Hunset.
  { rewrite Hev. unfold is_set. subst e. by rewrite lookup_app_r, Nat.sub_diag. }
  assert (e < length (events w1))%nat as Hlt.
  { destruct (steps_keep_set _ _ e Hbefore) as [_ Hlen].
    rewrite Hev, length_app in Hlen. simpl in Hlen. lia. }
  assert (is_set (events (signal_flow_termination self w1).1) e = true) as Hset.
  { unfold signal_flow_termination. rewrite Hte. simpl. unfold is_set.
    by rewrite list_lookup_insert_eq. }
  assert (∀ w', is_set (events w') e = true →
                check_for_termination c m (events w') = Returned true) as Hcheck.
  { intros w' Hw'. destruct c; simpl;
      unfold BatchprocessingQueueMessenger.check_for_termination,
        RealtimeQueueMessenger.check_for_termination;
      by rewrite Hm, Hte, Hw'. }
  assert (is_set (events w2) e = true) as Hset2.
  { by apply (steps_keep_set _ _ e Hafter). }
  split; [by exists e|].
  split; [unfold signal_flow_termination; by rewrite Hte|].
  split; [by apply Hcheck|].
  split; [by apply Hcheck|].
  split; [intros w3 H3; by apply Hcheck, (steps_keep_set _ _ e H3)|].
  split.
  { intros node tq pq c' m'. unfold new_messenger.
    destruct (_flow_type self); intros [= <- <-]; done. }
  split; [intros; apply send_keeps_event|intros; apply receive_keeps_event].
Qed.

End Startup.

(** ** Joining *)

Section Joining.
Context {V : Type}.
Import QueueExecutionEnvironment.

Lemma join_from_all (join : nat → nat → JoinResult) (procs : list (Process V)) i :
  (∀ d, (d < length procs)%nat → join (i + d)%nat 0%nat = Interrupted →
        join (i + d)%nat 1%nat = Exits) →
  join_from join i procs = (seq i (length procs), Returned tt).
Proof.
  revert i. induction procs as [|p rest IH]; intros i Hok; [done|].
  simpl. pose proof (Hok 0%nat ltac:(simpl; lia)) as H0. rewrite Nat.add_0_r in H0.
  rewrite (IH (S i)).
  2:{ intros d Hd. replace (S i + d)%nat with (i + S d)%nat by lia.
      apply Hok. simpl. lia. }
  destruct (join i 0%nat); [done|]. by rewrite H0.
Qed.

Lemma join_from_propagates (join : nat → nat → JoinResult) (procs : list (Process V)) i d :
  (d < length procs)%nat →
  (∀ d', (d' < d)%nat → join (i + d')%nat 0%nat = Interrupted →
         join (i + d')%nat 1%nat = Exits) →
  join (i + d)%nat 0%nat = Interrupted →
  join (i + d)%nat 1%nat = Interrupted →
  join_from join i procs = (seq i d, Raised KeyboardInterrupt).
Proof.
  revert i d. induction procs as [|p rest IH]; intros i d Hd Hok H0 H1; [simpl in Hd; lia|].
  simpl. destruct d as [|d].
  - rewrite Nat.add_0_r in H0, H1. by rewrite H0, H1.
  - rewrite (IH (S i) d).
    + pose proof (Hok 0%nat ltac:(lia)) as Hh. rewrite Nat.add_0_r in Hh.
      destruct (join i 0%nat); [done|]. by rewrite Hh.
    + simpl in Hd. lia.
    + intros d' Hd'. replace (S i + d')%nat with (i + S d')%nat by lia. apply Hok. lia.
    + by replace (S i + d)%nat with (i + S d)%nat by lia.
    + by replace (S i + d)%nat with (i + S d)%nat by lia.
Qed.

(** C9, as the code has it.  [join_task_processes] waits for the units in
    turn.  An interrupt of the first wait on a unit is absorbed and the
    wait is made once more; when for every unit that second wait is left
    alone, every unit is waited for and the call returns.  An interrupt of
    the second wait on a unit is not absorbed: [KeyboardInterrupt] reaches
    the caller and the units after it are not waited for. *)
Theorem join_retries_once (self : Env V) (join : nat → nat → JoinResult) :
  ((∀ i, (i < length (_procs self))%nat → join i 0%nat = Interrupted → join i 1%nat = Exits) →
   join_task_processes self join = (seq 0 (length (_procs self)), Returned tt)) ∧
  (∀ i, (i < length (_procs self))%nat →
     (∀ i', (i' < i)%nat → join i' 0%nat = Interrupted → join i' 1%nat = Exits) →
     join i 0%nat = Interrupted →
     join i 1%nat = Interrupted →
     join_task_processes self join = (seq 0 i, Raised KeyboardInterrupt)).
Proof.
  unfold join_task_processes. split.
  - intros Hok. apply join_from_all. intros d Hd. by apply Hok.
  - intros i Hi Hok H0 H1. by apply join_from_propagates.
Qed.

End Joining.

(** ** The statements at work on the example pipelines *)

Lemma batch_sends_block_witness :
  within_capacity Examples.empty2 ∧ within_capacity Examples.full2 ∧
  (* with room: the envelope is at the back of the channel *)
  send Batchprocessing (publish_message_ 5) Examples.transform (Some Examples.empty2)
  = (mkMessenger Examples.node_B (Some 0%nat) (Some 1%nat) [1%nat] (Some 0%nat)
       (Some (<[ 2%nat := 5 ]> {[ 1%nat := 7 ]})),
     Some (mkQueue 2 [Some (<[ 2%nat := 5 ]> {[ 1%nat := 7 ]})]), Returned tt) ∧
  (* full: the call waits, and goes through once the head has been taken *)
  send Batchprocessing (publish_message_ 5) Examples.source (Some Examples.full2)
  = (Examples.source, Some Examples.full2, WaitingPut (Some {[ 1%nat := 5 ]})) ∧
  queue_put (Some (mkQueue 2 [Some {[ 1%nat := 6 ]}])) (Some {[ 1%nat := 5 ]}) true
  = (Some (mkQueue 2 [Some {[ 1%nat := 6 ]}; Some {[ 1%nat := 5 ]}]), Returned tt).
Proof.
  assert (within_capacity Examples.empty2) as Hcap0.
  { unfold within_capacity. simpl. lia. }
  assert (within_capacity Examples.full2) as Hcap2.
  { unfold within_capacity. simpl. lia. }
  split; [exact Hcap0|]. split; [exact Hcap2|].
  destruct (batch_sends_block (publish_message_ 5) Examples.transform Examples.empty2
              (replicate 10 1) 0 Hcap0 eq_refl) as (Hroom & _).
  destruct (batch_sends_block (publish_message_ 5) Examples.source Examples.full2
              (replicate 10 1) 0 Hcap2 eq_refl) as (_ & Hfull & _).
  split; [exact (Hroom eq_refl)|].
  destruct (Hfull eq_refl) as (Hwait & Hwake).
  split; [exact Hwait|].
  exact (proj2 (Hwake (Some {[ 1%nat := 5 ]}) (mkQueue 2 [Some {[ 1%nat := 6 ]}]) eq_refl)).
Defined.



Lemma realtime_termination_blocks_witness :
  (* with room: the envelope is at the back of the channel *)
  send Realtime passthrough_termination_message_ Examples.transform (Some Examples.empty2)
  = (Examples.transform, Some (mkQueue 2 [Some {[ 1%nat := 7 ]}]), Returned tt) ∧
  (* full: the call waits, and goes through once the head has been taken *)
  send Realtime passthrough_termination_message_ Examples.transform (Some Examples.full2)
  = (Examples.transform, Some Examples.full2, WaitingPut (Some {[ 1%nat := 7 ]})) ∧
  queue_put (Some (mkQueue 2 [Some {[ 1%nat := 6 ]}])) (Some {[ 1%nat := 7 ]}) true
  = (Some (mkQueue 2 [Some {[ 1%nat := 6 ]}; Some {[ 1%nat := 7 ]}]), Returned tt).
Proof.
  assert (within_capacity Examples.empty2) as Hcap0.
  { unfold within_capacity. simpl. lia. }
  assert (within_capacity Examples.full2) as Hcap2.
  { unfold within_capacity. simpl. lia. }
  destruct (realtime_termination_blocks passthrough_termination_message_
              Examples.transform Examples.empty2 Hcap0 (or_intror eq_refl)) as (Hroom & _).
  destruct (realtime_termination_blocks passthrough_termination_message_
              Examples.transform Examples.full2 Hcap2 (or_intror eq_refl)) as (_ & Hfull).
  split; [exact (Hroom eq_refl)|].
  destruct (Hfull eq_refl) as (Hwait & Hwake).
  split; [exact Hwait|].
  exact (proj2 (Hwake (Some {[ 1%nat := 5 ]}) (mkQueue 2 [Some {[ 1%nat := 6 ]}]) eq_refl)).
Defined.

Lemma publish_stamps_envelope_witness :
  full Examples.empty2 = false ∧
  send Realtime (publish_message_ 14) Examples.transform (Some Examples.empty2)
  = (mkMessenger Examples.node_B (Some 0%nat) (Some 1%nat) [1%nat] (Some 0%nat)
       (Some (<[ 2%nat := 14 ]> {[ 1%nat := 7 ]})),
     Some (mkQueue 2 [Some (<[ 2%nat := 14 ]> {[ 1%nat := 7 ]})]), Returned tt) ∧
  send Batchprocessing (publish_message_ 14) Examples.source (Some Examples.empty2)
  = (Examples.source, Some (mkQueue 2 [Some {[ 1%nat := 14 ]}]), Returned tt) ∧
  (<[ 2%nat := 14 ]> ({[ 1%nat := 7 ]} : gmap node_id Z)) !! 1%nat = Some 7.
Proof.
  split; [reflexivity|].
  pose proof (publish_stamps_envelope Realtime Examples.transform 14 Examples.empty2 eq_refl)
    as H.
  pose proof (publish_stamps_envelope Batchprocessing Examples.source 14 Examples.empty2
                eq_refl) as H'.
  simpl in H, H'. destruct H as (Hsend & _ & Hother). destruct H' as (Hsend' & _).
  split; [exact Hsend|]. split; [exact Hsend'|].
  rewrite (Hother 1%nat); [reflexivity|discriminate].
Defined.

Lemma receive_message_reads_parents_witness :
  receive Batchprocessing Examples.sink (Some Examples.inbox)
  = (mkMessenger Examples.node_K (Some 1%nat) (Some 2%nat) [1%nat; 2%nat] (Some 0%nat)
       (Some Examples.envelope_AB),
     Some (mkQueue 2 []), Returned [7; 14]) ∧
  _last_message_received
    (receive Batchprocessing Examples.sink (Some Examples.inbox)).1.1
  = Some (<[ 2%nat := 14 ]> {[ 1%nat := 7 ]}).
Proof.
  destruct (receive_message_reads_parents Batchprocessing Examples.sink Examples.inbox)
    as (_ & Hnext).
  destruct (Hnext (Some Examples.envelope_AB) [] eq_refl) as (_ & Hvalues & _).
  assert (Forall2 (λ a v, ∃ d, Some Examples.envelope_AB = Some d ∧ d !! a = Some v)
            (_parent_nodes_ids Examples.sink) [7; 14]) as Hvs.
  { repeat constructor; exists Examples.envelope_AB; split; reflexivity. }
  split; [exact (Hvalues [7; 14] Hvs)|].
  rewrite (Hvalues [7; 14] Hvs). reflexivity.
Defined.

Lemma passthrough_before_receive_witness :
  _last_message_received Examples.sink = None ∧
  full Examples.empty2 = false ∧
  RealtimeQueueMessenger.passthrough_termination_message Examples.sink (Some Examples.empty2)
  = (Examples.sink, Some (mkQueue 2 [None]), Returned tt).
Proof.
  split; [reflexivity|]. split; [reflexivity|].
  exact (proj1 (proj2 (proj2 (proj2
           (passthrough_before_receive Examples.sink Examples.empty2 eq_refl eq_refl))))).
Defined.


Lemma termination_is_monotonic_witness :
  check_for_termination Batchprocessing Examples.source (events Examples.after_publish)
  = Returned true.
Proof.
  refine (proj1 (proj2 (proj2 (proj2
            (termination_is_monotonic Examples.device_type Examples.change_device
               (QueueExecutionEnvironment.__init__ BATCH 0) Examples.pipeline
               Examples.empty_world Examples.pipeline_run.1.2 Examples.after_publish
               Batchprocessing Examples.source _ _ eq_refl))))).
  - apply rtc_refl.
  - apply rtc_once.
    exact (step_send Examples.device_type Examples.change_device Batchprocessing
             (publish_message_ 5) Examples.source Examples.signalled).
Defined.

Lemma join_retries_once_witness :
  QueueExecutionEnvironment.join_task_processes Examples.pipeline_run.1.1
    Examples.interrupted_once
  = ([0; 1; 2]%nat, Returned tt).
Proof.
  apply (proj1 (join_retries_once Examples.pipeline_run.1.1 Examples.interrupted_once)).
  intros [|[|i]] _ H; (reflexivity || discriminate H).
Defined.

(** C9, as the claim has it, fails: unit 0 is interrupted during its first
    wait and again during the retry (a third wait would have found it
    gone).  The second interrupt reaches the caller and no unit has been
    waited for. *)
Lemma join_second_interrupt_propagates :
  (∀ i, Examples.interrupted_twice i 2%nat = Exits) ∧
  QueueExecutionEnvironment.join_task_processes Examples.pipeline_run.1.1
    Examples.interrupted_twice
  = ([], Raised KeyboardInterrupt).
Proof. split; [by intros [|i]|reflexivity]. Qed.

(** * Further properties of the messengers *)

Section MessengerFacts.
Context {V : Type}.
Implicit Types (q : Queue V) (obj : envelope V) (m : Messenger V) (s : Send V).

(** X2. While the channel has room the two delivery policies cannot be told
    apart: each sending method of the realtime class does exactly what the
    method of the same name does in the batch class. *)
Theorem policies_agree_with_room s m q :
  full q = false →
  send Realtime s m (Some q) = send Batchprocessing s m (Some q).
Proof. intros Hf. by rewrite !send_room. Qed.

(** X3. No method of a messenger overfills a channel or changes its
    capacity: after any send or receive, of either class, the channel
    still holds at most [maxsize] items and [maxsize] is what it was. *)
Theorem channel_stays_within_capacity q :
  within_capacity q →
  (∀ c s m, ∃ q', (send c s m (Some q)).1.2 = Some q' ∧
                  within_capacity q' ∧ maxsize q' = maxsize q) ∧
  (∀ c m, ∃ q', (receive c m (Some q)).1.2 = Some q' ∧
                within_capacity q' ∧ maxsize q' = maxsize q).
Proof.
  intros Hcap. split.
  - intros c s m. destruct (full q) eqn:Hf.
    + exists q. split; [|done]. rewrite send_unfold.
      unfold RealtimeQueueMessenger.swallowing, task_queue_put, queue_put, put.
      rewrite Hf. by destruct c, (blocking _ s).
    + exists (enqueue q (outgoing s m)). rewrite send_room by done.
      split; [done|]. split; [by apply enqueue_within_capacity|done].
  - intros c m. rewrite receive_unfold.
    unfold BatchprocessingQueueMessenger.receive_message, get.
    destruct (items q) as [|input rest] eqn:Hi.
    + by exists q.
    + exists (mkQueue (maxsize q) rest). split; [by destruct (index_all _ _)|].
      split; [|done]. unfold within_capacity in *. rewrite Hi in Hcap. simpl in *. lia.
Qed.

(** X4. What a publish sends is decided by the last received envelope and
    the value alone.  Whatever the messenger has sent since its last
    receive (published, passed through, dropped or not), the envelope a
    publish of [y] enqueues is the last received dict with the own id set
    to [y], or the fresh one-entry dict when nothing was received. *)
Theorem publish_ignores_earlier_sends c c' (ss : list (Send V)) m tq (y : V) q :
  full q = false →
  send c' (publish_message_ y) (send_all c ss m tq).1.1 (Some q)
  = (after_stamp (publish_message_ y) (send_all c ss m tq).1.1,
     Some (enqueue q (Some
       match _last_message_received m with
       | None => {[ id (_computation_node m) := y ]}
       | Some d => <[ id (_computation_node m) := y ]> d
       end)),
     Returned tt).
Proof.
  intros Hf. rewrite send_room by done. simpl.
  by rewrite send_all_stamped.
Qed.

(** One receive that finds its parents. *)
Lemma receive_head c m n input rest (vs : list V) :
  index_all input (_parent_nodes_ids m) = inr vs →
  receive c m (Some (mkQueue n (input :: rest)))
  = (set_last_message_received m input, Some (mkQueue n rest), Returned vs).
Proof.
  intros Hvs. rewrite receive_unfold.
  unfold BatchprocessingQueueMessenger.receive_message, get. simpl. by rewrite Hvs.
Qed.

(** Sends of a source with room: the channel gains the one-entry dicts, in
    order. *)
Lemma source_send_all c (vs : list V) m q :
  _last_message_received m = None →
  (length (items q) + length vs ≤ maxsize q)%nat →
  send_all c (publish_message_ <$> vs) m (Some q)
  = (m,
     Some (mkQueue (maxsize q)
             (items q ++ ((λ v, Some {[ id (_computation_node m) := v ]}) <$> vs))),
     Returned tt).
Proof.
  intros Hnone. revert q. induction vs as [|v vs IH]; intros q Hlen; simpl in *.
  - rewrite app_nil_r. by destruct q.
  - rewrite send_room by (apply full_false_lt; lia).
    assert (after_stamp (publish_message_ v) m = m) as ->.
    { unfold after_stamp. by rewrite Hnone. }
    rewrite IH.
    + simpl. unfold stamped. rewrite Hnone. by rewrite <- app_assoc.
    + simpl. rewrite length_app. simpl. lia.
Qed.

Lemma receive_n_singletons c (vs : list V) (reader : Messenger V) a n rest :
  _parent_nodes_ids reader = [a] →
  ∃ reader',
    receive_n c (length vs) reader
      (Some (mkQueue n (((λ v, Some {[ a := v ]}) <$> vs) ++ rest)))
    = (reader', Some (mkQueue n rest), Returned ((λ v, [v]) <$> vs)) ∧
    _parent_nodes_ids reader' = [a].
Proof.
  intros Hp. revert reader Hp. induction vs as [|v vs IH]; intros reader Hp; csimpl.
  - by exists reader.
  - rewrite (receive_head _ _ _ _ _ [v]).
    2:{ rewrite Hp. simpl. by rewrite lookup_singleton_eq. }
    destruct (IH (set_last_message_received reader (Some {[a := v]})) Hp)
      as (reader' & Hr & Hp').
    exists reader'. by rewrite Hr.
Qed.

(** X1. What a source publishes arrives, complete and in order.  A messenger
    that has received nothing publishes the values [vs] one after the
    other on an empty channel that has room for them; every call returns.
    A reader whose one parent is that source then calls [receive_message]
    once per value: every call returns, the [i]-th with the [i]-th value,
    and the channel is empty again.  This holds for either class on either
    side. *)
Theorem published_values_arrive_in_order c c' (vs : list V) m (reader : Messenger V) q :
  _last_message_received m = None →
  items q = [] →
  (length vs ≤ maxsize q)%nat →
  _parent_nodes_ids reader = [id (_computation_node m)] →
  ∃ q' reader',
    send_all c (publish_message_ <$> vs) m (Some q) = (m, Some q', Returned tt) ∧
    receive_n c' (length vs) reader (Some q')
    = (reader', Some q, Returned ((λ v, [v]) <$> vs)).
Proof.
  intros Hnone Hempty Hlen Hp.
  rewrite (source_send_all c vs m q Hnone) by (rewrite Hempty; simpl; lia).
  rewrite Hempty. simpl.
  destruct (receive_n_singletons c' vs reader (id (_computation_node m)) (maxsize q) [] Hp)
    as (reader' & Hrecv & _).
  rewrite app_nil_r in Hrecv.
  eexists _, reader'. split; [done|].
  rewrite Hrecv. destruct q as [n its]. simpl in *. by subst its.
Qed.

(** The first parent id the envelope lacks is the one the error names. *)
Lemma index_all_first_missing (d : gmap node_id V) (pre post : list node_id) a :
  Forall (λ b, is_Some (d !! b)) pre →
  d !! a = None →
  index_all (Some d) (pre ++ a :: post) = inl (KeyError a).
Proof.
  intros Hpre Ha. induction Hpre as [|b pre [v Hb] _ IH]; simpl.
  - by rewrite Ha.
  - by rewrite Hb, IH.
Qed.

(** X5. When the envelope lacks parent ids, [receive_message] raises
    [KeyError] for the first of them in the order of the parent ids; the
    envelope has by then been taken off the channel and is the messenger's
    [_last_message_received], its other fields as they were. *)
Theorem receive_reports_first_missing_parent c m q (d : gmap node_id V) rest
    (pre post : list node_id) a :
  items q = Some d :: rest →
  _parent_nodes_ids m = pre ++ a :: post →
  Forall (λ b, is_Some (d !! b)) pre →
  d !! a = None →
  receive c m (Some q)
  = (mkMessenger (_computation_node m) (_parent_task_queue m) (_task_queue m)
       (_parent_nodes_ids m) (_termination_event m) (Some d),
     Some (mkQueue (maxsize q) rest), Raised (KeyError a)) ∧
  _last_message_received (receive c m (Some q)).1.1 = Some d.
Proof.
  intros Hi Hp Hpre Ha. rewrite receive_unfold.
  unfold BatchprocessingQueueMessenger.receive_message, get. rewrite Hi.
  pose proof (index_all_first_missing d pre post a Hpre Ha) as Hidx.
  rewrite <- Hp in Hidx. by rewrite Hidx.
Qed.

(** X6. Envelopes accumulate along a path.  A node receives the dict [d]
    and publishes [b]; the envelope it enqueues carries [b] under its own
    id and, under every other id, what [d] carried.  So a reader of that
    channel finds, for each of its parent ids, the sender's [b] if the id
    is the sender's and otherwise the value already in [d]. *)
Theorem envelope_accumulates_along_path c c' c'' m (reader : Messenger V)
    qin qout (d : gmap node_id V) rest inputs (b : V) (vs : list V) :
  items qin = Some d :: rest →
  (receive c m (Some qin)).2 = Returned inputs →
  items qout = [] →
  full qout = false →
  Forall2 (λ a v, if decide (a = id (_computation_node m)) then v = b
                  else d !! a = Some v)
          (_parent_nodes_ids reader) vs →
  let m1 := (receive c m (Some qin)).1.1 in
  ∃ m2 qout',
    send c' (publish_message_ b) m1 (Some qout) = (m2, Some qout', Returned tt) ∧
    items qout' = [Some (<[ id (_computation_node m) := b ]> d)] ∧
    (receive c'' reader (Some qout')).2 = Returned vs.
Proof.
  intros Hi Hret Hempty Hf Hvs m1.
  assert (m1 = set_last_message_received m (Some d)) as Hm1.
  { subst m1. rewrite receive_unfold.
    unfold BatchprocessingQueueMessenger.receive_message, get. rewrite Hi.
    by destruct (index_all _ _). }
  rewrite send_room by done.
  eexists _, _. split; [done|].
  assert (outgoing (publish_message_ b) m1 = Some (<[ id (_computation_node m) := b ]> d))
    as Hout by (by rewrite Hm1).
  rewrite Hout. unfold enqueue. rewrite Hempty, app_nil_l. split; [done|].
  rewrite (receive_head _ _ _ _ _ vs); [done|].
  apply index_all_present.
  eapply Forall2_impl; [exact Hvs|].
  intros a v Hav. simpl in Hav. exists (<[ id (_computation_node m) := b ]> d).
  split; [done|]. case_decide as Ha.
  - subst. apply lookup_insert_eq.
  - by rewrite lookup_insert_ne.
Qed.

(** A realtime publish or passthrough on a full channel. *)
Lemma realtime_send_full s m q :
  blocking Realtime s = false →
  full q = true →
  send Realtime s m (Some q) = (after_stamp s m, Some q, Returned tt).
Proof.
  intros Hb Hf. rewrite send_unfold, Hb.
  unfold RealtimeQueueMessenger.swallowing, task_queue_put, queue_put.
  by rewrite (put_full_nonblocking _ _ Hf).
Qed.

(** X17. The lossy policy keeps the oldest and drops the newest.  A
    realtime messenger that has received nothing publishes the values
    [vs] one after the other on a channel nobody reads: every call
    returns, the channel takes the first values until it is full, in the
    order published, and each later value is lost. *)
Theorem realtime_keeps_oldest_values (vs : list V) m q :
  _last_message_received m = None →
  within_capacity q →
  send_all Realtime (publish_message_ <$> vs) m (Some q)
  = (m,
     Some (mkQueue (maxsize q)
             (items q ++ take (maxsize q - length (items q))
                          ((λ v, Some {[ id (_computation_node m) := v ]}) <$> vs))),
     Returned tt).
Proof.
  intros Hnone. revert q. induction vs as [|v vs IH]; intros q Hcap.
  - simpl. rewrite take_nil, app_nil_r. by destruct q.
  - rewrite !fmap_cons, send_all_cons.
    assert (after_stamp (publish_message_ v) m = m) as Hm.
    { unfold after_stamp. by rewrite Hnone. }
    unfold within_capacity in Hcap.
    destruct (full q) eqn:Hf.
    + rewrite realtime_send_full, Hm by done. rewrite IH by done.
      apply full_true_le in Hf.
      by replace (maxsize q - length (items q))%nat with 0%nat by lia.
    + rewrite send_room, Hm by done. apply full_false_lt in Hf.
      rewrite IH by (by apply enqueue_within_capacity, full_false_lt).
      simpl. rewrite length_app. simpl.
      replace (maxsize q - length (items q))%nat
        with (S (maxsize q - (length (items q) + 1)))%nat by lia.
      simpl. unfold stamped. rewrite Hnone. by rewrite <- app_assoc.
Qed.

End MessengerFacts.

(** * Further properties of the environment *)

Section EnvironmentFacts.
Context {V : Type}.
Variable device_type : Task V → Device.
Variable change_device : Task V → Device → option (Task V).
Import QueueExecutionEnvironment.
Implicit Types (self : Env V) (w : World V) (tasks : list (option (Task V))).

Local Abbreviation create_processes := (create_processes device_type change_device).
Local Abbreviation create_process := (create_process device_type change_device).
Local Abbreviation create_and_start := (create_and_start device_type change_device).
Local Abbreviation _al_create_and_start_processes :=
  (_al_create_and_start_processes device_type change_device).

(** ** Channels and wiring *)

(** Step 0: the new queues are appended, and the dict sends each id to the
    queue made for the last entry carrying that id. *)
Lemma create_output_queues_dict (tasks_data : list TaskData) self w :
  let r := create_output_queues tasks_data self w in
  queues r.2 = queues w ++ replicate (length tasks_data) (new_Queue 10) ∧
  (∀ i, i ∈ data_node_id <$> tasks_data →
     ∃ k data, _task_output_queues r.1 !! i = Some (length (queues w) + k)%nat ∧
               tasks_data !! k = Some data ∧ data_node_id data = i) ∧
  (∀ i, i ∉ data_node_id <$> tasks_data →
     _task_output_queues r.1 !! i = _task_output_queues self !! i).
Proof.
  revert self w. induction tasks_data as [|data rest IH]; intros self w; simpl.
  - rewrite app_nil_r. split; [done|]. split; [|done].
    intros i Hi. by apply elem_of_nil in Hi.
  - set (self1 := set_task_output_queues self _).
    set (w1 := emit _ _).
    destruct (IH self1 w1) as (Hq & Hin & Hout).
    assert (queues w1 = queues w ++ [new_Queue 10]) as Hq1 by done.
    assert (∀ i, _task_output_queues self1 !! i
                 = <[data_node_id data := length (queues w)]> (_task_output_queues self) !! i)
      as Hd1 by done.
    clearbody self1 w1.
    split; [by rewrite Hq, Hq1, <- app_assoc|]. split.
    + intros i Hi. destruct (decide (i ∈ data_node_id <$> rest)) as [Hrest|Hrest].
      * destruct (Hin i Hrest) as (k & d & Hl & Hk & Hid).
        exists (S k), d. rewrite Hl, Hq1, length_app. simpl.
        split; [f_equal; lia|done].
      * apply elem_of_cons in Hi as [->|Hi]; [|done].
        exists 0%nat, data. rewrite (Hout _ Hrest), Hd1, lookup_insert_eq.
        split; [f_equal; lia|done].
    + intros i Hi. apply not_elem_of_cons in Hi as [Hne Hrest].
      by rewrite (Hout _ Hrest), Hd1, lookup_insert_ne.
Qed.

Lemma initialize_tasks_built (tasks_data : list TaskData) self w tasks :
  let r := initialize_tasks tasks_data self w tasks in
  queues r.1 = queues w ∧
  ∀ tasks', r.2 = inr tasks' →
    ∃ ts, tasks' = tasks ++ ts ∧ Forall2 (built self) tasks_data ts.
Proof.
  revert w tasks. induction tasks_data as [|data rest IH]; intros w tasks; simpl.
  - split; [done|]. intros ? [= <-]. exists []. by rewrite app_nil_r.
  - set (ms := new_messenger self _ _ _).
    set (w1 := emit w _). assert (queues w1 = queues w) as Hq1 by done. clearbody w1.
    destruct (new_task data ms) as [e|task] eqn:Hnew; simpl; [done|].
    set (w2 := emit w1 _). assert (queues w2 = queues w1) as Hq2 by done. clearbody w2.
    destruct (IH w2 (tasks ++ [task])) as (Hq & Hts).
    split; [congruence|].
    intros tasks' Hr. destruct (Hts _ Hr) as (ts & -> & HF).
    exists (task :: ts). rewrite <- app_assoc. split; [done|].
    constructor; [exact Hnew|done].
Qed.


(** Steps 0 and 1 together, whatever step 1 ends with. *)
Lemma create_tasks_channels (tasks_data : list TaskData) self w :
  let r := create_tasks self tasks_data w in
  queues r.1.2 = queues w ++ replicate (length tasks_data) (new_Queue 10) ∧
  (∀ i, i ∈ data_node_id <$> tasks_data →
     ∃ k data, _task_output_queues r.1.1 !! i = Some (length (queues w) + k)%nat ∧
               tasks_data !! k = Some data ∧ data_node_id data = i) ∧
  (∀ i, i ∉ data_node_id <$> tasks_data →
     _task_output_queues r.1.1 !! i = _task_output_queues self !! i) ∧
  ∀ tasks, r.2 = inr tasks → Forall2 (built r.1.1) tasks_data tasks.
Proof.
  unfold QueueExecutionEnvironment.create_tasks.
  destruct (create_output_queues_dict tasks_data self w) as (Hq & Hin & Hout).
  destruct (create_output_queues tasks_data self w) as [self1 w1]. simpl in Hq, Hin, Hout.
  simpl.
  set (self2 := set_termination_event self1 _).
  set (w2 := emit _ _).
  assert (queues w2 = queues w1) as Hq2 by done.
  assert (_task_output_queues self2 = _task_output_queues self1) as Hd2 by done.
  clearbody self2 w2.
  destruct (initialize_tasks_built tasks_data self2 w2 []) as (Hq3 & Hts).
  destruct (initialize_tasks tasks_data self2 w2 []) as [w3 res]. simpl in *.
  split; [congruence|]. rewrite Hd2. split; [done|]. split; [done|].
  intros tasks Hr. destruct (Hts _ Hr) as (ts & -> & HF). done.
Qed.

(** Steps 2 and 3 touch neither the queues nor the dict of queues. *)
Lemma create_processes_keeps_channels tasks self w :
  let r := create_processes tasks self w in
  queues r.1.2 = queues w ∧ _task_output_queues r.1.1 = _task_output_queues self.
Proof.
  revert self w. induction tasks as [|task rest IH]; intros self w; simpl; [done|].
  assert (_task_output_queues (create_process task self).1 = _task_output_queues self) as Hd.
  { rewrite create_process_requests. destruct (requests_gpu device_type task); [|done].
    simpl. destruct (_ <? _); [done|]. by destruct (task ≫= _). }
  destruct (create_process task self) as [self1 [e|proc]]; simpl in *; [done|].
  destruct (IH (set_procs self1 (_procs self1 ++ [proc]))
              (emit w [ProcessCreated (length (_procs self1))])) as (Hq & Hd').
  split; [done|]. by rewrite Hd'.
Qed.

Lemma startup_channels (tasks_data : list TaskData) self w :
  let r := _al_create_and_start_processes self tasks_data w in
  queues r.1.2 = queues (create_tasks self tasks_data w).1.2 ∧
  _task_output_queues r.1.1
  = _task_output_queues (create_tasks self tasks_data w).1.1.
Proof.
  unfold QueueExecutionEnvironment._al_create_and_start_processes.
  destruct (create_tasks self tasks_data w) as [[self2 w3] [e|tasks]]; [done|].
  unfold QueueExecutionEnvironment.create_and_start.
  destruct (create_processes_keeps_channels tasks self2 w3) as (Hq & Hd).
  by destruct (create_processes tasks self2 w3) as [[self3 w4] [[]|e|obj|]].
Qed.

(** X7. Startup gives every node a channel of its own.  The queues it
    creates are appended to the existing ones, one per entry, each empty
    and of capacity 10; afterwards the dict of output queues sends every
    node id of the topology to one of these new queues, and two different
    ids never to the same one.  This holds however startup ends. *)
Theorem startup_gives_each_node_its_channel self (tasks_data : list TaskData) w :
  let r := _al_create_and_start_processes self tasks_data w in
  queues r.1.2 = queues w ++ replicate (length tasks_data) (new_Queue 10) ∧
  (∀ data, data ∈ tasks_data →
     ∃ q, _task_output_queues r.1.1 !! data_node_id data = Some q ∧
          (length (queues w) ≤ q)%nat ∧
          queues r.1.2 !! q = Some (new_Queue 10)) ∧
  (∀ d1 d2 q, d1 ∈ tasks_data → d2 ∈ tasks_data →
     _task_output_queues r.1.1 !! data_node_id d1 = Some q →
     _task_output_queues r.1.1 !! data_node_id d2 = Some q →
     data_node_id d1 = data_node_id d2).
Proof.
  intros r. destruct (startup_channels tasks_data self w) as (Hq & Hd).
  fold r in Hq, Hd. rewrite Hq, Hd.
  destruct (create_tasks_channels tasks_data self w) as (Hqs & Hin & _ & _).
  split; [done|]. split.
  - intros data Hdata.
    destruct (Hin (data_node_id data)) as (k & d & Hl & Hk & _).
    { by apply list_elem_of_fmap_2. }
    exists (length (queues w) + k)%nat. split; [done|]. split; [lia|].
    rewrite Hqs, lookup_app_r by lia.
    replace (length (queues w) + k - length (queues w))%nat with k by lia.
    apply lookup_replicate_2. by apply lookup_lt_Some in Hk.
  - intros d1 d2 q H1 H2 Hl1 Hl2.
    destruct (Hin (data_node_id d1)) as (k1 & e1 & Hk1 & He1 & Hi1);
      [by apply list_elem_of_fmap_2|].
    destruct (Hin (data_node_id d2)) as (k2 & e2 & Hk2 & He2 & Hi2);
      [by apply list_elem_of_fmap_2|].
    rewrite Hl1 in Hk1. rewrite Hl2 in Hk2.
    assert (k1 = k2) as -> by (simplify_eq; lia).
    congruence.
Qed.

(** What [built] says of an entry whose node is of a known class. *)
Lemma built_known self (data : TaskData) (task : option (Task V)) :
  built self data task →
  kind (data_node data) ≠ OtherNode →
  ∃ t c m, task = Some t ∧ task_node t = data_node data ∧ task_messenger t = (c, m) ∧
    _computation_node m = data_node data ∧
    _task_queue m = _task_output_queues self !! data_node_id data ∧
    _parent_task_queue m
    = (data_parent_node_id data ≫= λ p, _task_output_queues self !! p) ∧
    _parent_nodes_ids m = default [] (parents (data_node data)) ∧
    QueueMessenger._termination_event m = _termination_event self ∧
    _last_message_received m = None ∧
    (c = Batchprocessing ∧ _flow_type self = BATCH ∨
     c = Realtime ∧ _flow_type self = REALTIME).
Proof.
  unfold built, new_task, new_messenger. intros Hb Hk.
  destruct (_flow_type self), (kind (data_node data)) eqn:Ek; simplify_eq/=;
    eexists _, _, _; (repeat split; try done); (by left) || (by right).
Qed.

(** X8. Startup wires each child to its parent.  When the topology gives
    an entry the node id of another entry as its parent id, the messenger
    built for the child reads from the very queue the messenger built for
    the parent writes to, and that queue is one of the new, empty ones.
    Each messenger is built around the node of its entry, with no envelope
    received, and holds the environment's termination event. *)
Theorem startup_wires_child_to_parent self (tasks_data : list TaskData) w self2 w3 tasks
    i j (pdata data : TaskData) :
  create_tasks self tasks_data w = (self2, w3, inr tasks) →
  tasks_data !! i = Some pdata →
  tasks_data !! j = Some data →
  kind (data_node pdata) ≠ OtherNode →
  kind (data_node data) ≠ OtherNode →
  data_parent_node_id data = Some (data_node_id pdata) →
  ∃ tp t q,
    tasks !! i = Some (Some tp) ∧ tasks !! j = Some (Some t) ∧
    _task_queue (task_messenger tp).2 = Some q ∧
    _parent_task_queue (task_messenger t).2 = Some q ∧
    queues w3 !! q = Some (new_Queue 10) ∧
    _computation_node (task_messenger tp).2 = data_node pdata ∧
    _computation_node (task_messenger t).2 = data_node data ∧
    _last_message_received (task_messenger t).2 = None ∧
    QueueMessenger._termination_event (task_messenger t).2 = _termination_event self2 ∧
    QueueMessenger._termination_event (task_messenger tp).2 = _termination_event self2.
Proof.
  intros Hct Hi Hj Hkp Hk Hparent.
  destruct (create_tasks_channels tasks_data self w) as (Hqs & Hin & _ & Hbuilt).
  rewrite Hct in Hqs, Hin, Hbuilt. simpl in Hqs, Hin, Hbuilt.
  specialize (Hbuilt tasks eq_refl).
  destruct (Forall2_lookup_l _ _ _ _ _ Hbuilt Hi) as (taskp & Htp & Hbp).
  destruct (Forall2_lookup_l _ _ _ _ _ Hbuilt Hj) as (task & Ht & Hb).
  destruct (built_known _ _ _ Hbp Hkp)
    as (tp & cp & mp & -> & _ & Hmp & Hnp & Hqp & _ & _ & Hep & _ & _).
  destruct (built_known _ _ _ Hb Hk)
    as (t & c & m & -> & _ & Hm & Hn & _ & Hpq & _ & He & Hlast & _).
  destruct (Hin (data_node_id pdata)) as (k & d & Hl & Hk' & _).
  { apply list_elem_of_fmap_2. by eapply list_elem_of_lookup_2. }
  exists tp, t, (length (queues w) + k)%nat.
  rewrite Hmp, Hm. simpl.
  split; [done|]. split; [done|]. split; [by rewrite Hqp|].
  split; [by rewrite Hpq, Hparent|]. split; [|done].
  rewrite Hqs, lookup_app_r by lia.
  replace (length (queues w) + k - length (queues w))%nat with k by lia.
  apply lookup_replicate_2. by apply lookup_lt_Some in Hk'.
Qed.

(** X9. A task built without a parent cannot receive.  For an entry whose
    parent id is [None] the messenger has no inbound queue, and
    [receive_message] raises [AttributeError] whatever the state of the
    channels, changing nothing. *)
Theorem task_without_parent_cannot_receive self (tasks_data : list TaskData) w self2 w3
    tasks j (data : TaskData) :
  create_tasks self tasks_data w = (self2, w3, inr tasks) →
  tasks_data !! j = Some data →
  kind (data_node data) ≠ OtherNode →
  data_parent_node_id data = None →
  ∃ t, tasks !! j = Some (Some t) ∧
       _parent_task_queue (task_messenger t).2 = None ∧
       ∀ w', call_receive (task_messenger t).1 (task_messenger t).2 w'
             = ((task_messenger t).2, w', Raised AttributeError).
Proof.
  intros Hct Hj Hk Hparent.
  destruct (create_tasks_channels tasks_data self w) as (_ & _ & _ & Hbuilt).
  rewrite Hct in Hbuilt. simpl in Hbuilt. specialize (Hbuilt tasks eq_refl).
  destruct (Forall2_lookup_l _ _ _ _ _ Hbuilt Hj) as (task & Ht & Hb).
  destruct (built_known _ _ _ Hb Hk) as (t & c & m & -> & _ & Hm & _ & _ & Hpq & _).
  rewrite Hparent in Hpq. simpl in Hpq.
  exists t. rewrite Hm. simpl. split; [done|]. split; [done|].
  intros w'. unfold call_receive. rewrite Hpq. simpl. rewrite receive_unfold. done.
Qed.

(** X10. After startup, what a parent publishes is what its child receives.
    Take two entries, the second naming the first as its parent in the
    topology and its node listing the first node as its only parent.  In
    the state startup leaves the channels in, the parent's messenger
    publishes [v] and returns; the child's messenger then receives and gets
    exactly [[v]]; the channel between them is empty again. *)
Theorem after_startup_child_receives_what_parent_publishes self
    (tasks_data : list TaskData) w self2 w3 tasks i j (pdata data : TaskData) (v : V) :
  create_tasks self tasks_data w = (self2, w3, inr tasks) →
  tasks_data !! i = Some pdata →
  tasks_data !! j = Some data →
  kind (data_node pdata) ≠ OtherNode →
  kind (data_node data) ≠ OtherNode →
  data_parent_node_id data = Some (data_node_id pdata) →
  parents (data_node data) = Some [id (data_node pdata)] →
  ∃ tp t w4,
    tasks !! i = Some (Some tp) ∧ tasks !! j = Some (Some t) ∧
    call_send (task_messenger tp).1 (publish_message_ v) (task_messenger tp).2 w3
    = ((task_messenger tp).2, w4, Returned tt) ∧
    call_receive (task_messenger t).1 (task_messenger t).2 w4
    = (set_last_message_received (task_messenger t).2
         (Some {[ id (data_node pdata) := v ]}),
       w3, Returned [v]).
Proof.
  intros Hct Hi Hj Hkp Hk Hparent Hparents.
  destruct (create_tasks_channels tasks_data self w) as (Hqs & Hin & _ & Hbuilt).
  rewrite Hct in Hqs, Hin, Hbuilt. simpl in Hqs, Hin, Hbuilt.
  specialize (Hbuilt tasks eq_refl).
  destruct (Forall2_lookup_l _ _ _ _ _ Hbuilt Hi) as (taskp & Htp & Hbp).
  destruct (Forall2_lookup_l _ _ _ _ _ Hbuilt Hj) as (task & Ht & Hb).
  destruct (built_known _ _ _ Hbp Hkp)
    as (tp & cp & mp & -> & _ & Hmp & Hnp & Hqp & _ & _ & _ & Hlastp & _).
  destruct (built_known _ _ _ Hb Hk)
    as (t & c & m & -> & _ & Hm & _ & _ & Hpq & Hids & _ & _ & _).
  destruct (Hin (data_node_id pdata)) as (k & d & Hl & Hk' & _).
  { apply list_elem_of_fmap_2. by eapply list_elem_of_lookup_2. }
  set (q := (length (queues w) + k)%nat) in *.
  assert (queues w3 !! q = Some (new_Queue 10)) as Hq.
  { rewrite Hqs, lookup_app_r by lia.
    replace (q - length (queues w))%nat with k by lia.
    apply lookup_replicate_2. by apply lookup_lt_Some in Hk'. }
  rewrite Hl in Hqp. rewrite Hparent in Hpq. simpl in Hpq. rewrite Hl in Hpq.
  rewrite Hparents in Hids. simpl in Hids.
  exists tp, t. rewrite Hmp, Hm. simpl.
  unfold call_send. rewrite Hqp. simpl. rewrite Hq.
  rewrite send_room by done.
  assert (after_stamp (publish_message_ v) mp = mp) as ->.
  { unfold after_stamp. by rewrite Hlastp. }
  assert (outgoing (publish_message_ v) mp = Some {[ id (data_node pdata) := v ]}) as ->.
  { simpl. unfold stamped. by rewrite Hlastp, Hnp. }
  eexists. split; [done|]. split; [done|]. split; [done|].
  unfold call_receive. rewrite Hpq. simpl.
  rewrite list_lookup_insert_eq by (by eapply lookup_lt_Some).
  unfold enqueue, new_Queue. simpl.
  rewrite (receive_head _ _ _ _ _ [v]).
  2:{ rewrite Hids. simpl. by rewrite lookup_singleton_eq. }
  simpl. rewrite list_insert_insert_eq, list_insert_id by done.
  by destruct w3.
Qed.

(** ** Accelerators *)

Lemma create_process_in_order task self :
  accelerators_in_order self →
  match create_process task self with
  | (self1, inr proc) => accelerators_in_order (set_procs self1 (_procs self1 ++ [proc]))
  | (self1, inl _) => accelerators_in_order self1
  end.
Proof.
  intros (Hnext & Hrange & Hinc). rewrite create_process_requests.
  assert (∀ task', accelerators_in_order
            (set_procs (set_next_gpu self (_next_gpu self + 1))
               (_procs self ++ [create_process_task task']))) as Hcpu1.
  { intros task'. split; [simpl; lia|]. split.
    - intros i p g [Hi|[_ Hi]]%lookup_app_Some Hg; simpl in *.
      + destruct (Hrange i p g Hi Hg). lia.
      + apply list_lookup_singleton_Some in Hi as [_ <-]. done.
    - intros i j p q g h Hij [Hi|[_ Hi]]%lookup_app_Some [Hj|[_ Hj]]%lookup_app_Some Hg Hh;
        simpl in *.
      + by apply (Hinc i j p q).
      + apply list_lookup_singleton_Some in Hj as [_ <-]. done.
      + apply list_lookup_singleton_Some in Hi as [_ <-]. done.
      + apply list_lookup_singleton_Some in Hi as [_ <-]. done. }
  destruct (requests_gpu device_type task).
  - simpl. destruct (_next_gpu self + 1 <? _nb_available_gpus self) eqn:Hlt.
    + apply Z.ltb_lt in Hlt. split; [simpl; lia|]. split.
      * intros i p g [Hi|[_ Hi]]%lookup_app_Some Hg; simpl in *.
        -- destruct (Hrange i p g Hi Hg). lia.
        -- apply list_lookup_singleton_Some in Hi as [_ <-].
           injection Hg as <-. lia.
      * intros i j p q g h Hij [Hi|[Hi1 Hi]]%lookup_app_Some
          [Hj|[Hj1 Hj]]%lookup_app_Some Hg Hh; simpl in *.
        -- by apply (Hinc i j p q).
        -- apply list_lookup_singleton_Some in Hj as [_ <-]. injection Hh as <-.
           destruct (Hrange i p g Hi Hg). lia.
        -- apply lookup_lt_Some in Hj. lia.
        -- apply list_lookup_singleton_Some in Hi as [Hi _].
           apply list_lookup_singleton_Some in Hj as [Hj _]. lia.
    + destruct (task ≫= _) as [t'|]; [apply Hcpu1|].
      split; [simpl; lia|]. split.
      * intros i p g Hi Hg. simpl in *. destruct (Hrange i p g Hi Hg). lia.
      * done.
  - split; [done|]. split.
    + intros i p g [Hi|[_ Hi]]%lookup_app_Some Hg; simpl in *.
      * by apply (Hrange i p g).
      * apply list_lookup_singleton_Some in Hi as [_ <-]. done.
    + intros i j p q g h Hij [Hi|[_ Hi]]%lookup_app_Some [Hj|[_ Hj]]%lookup_app_Some Hg Hh;
        simpl in *.
      * by apply (Hinc i j p q).
      * apply list_lookup_singleton_Some in Hj as [_ <-]. done.
      * apply list_lookup_singleton_Some in Hi as [_ <-]. done.
      * apply list_lookup_singleton_Some in Hi as [_ <-]. done.
Qed.

Lemma create_processes_in_order tasks self w :
  accelerators_in_order self →
  accelerators_in_order (create_processes tasks self w).1.1.
Proof.
  revert self w. induction tasks as [|task rest IH]; intros self w Hinv; simpl; [done|].
  pose proof (create_process_in_order task self Hinv) as Hstep.
  destruct (create_process task self) as [self1 [e|proc]]; [done|].
  by apply IH.
Qed.

Lemma startup_in_order self (tasks_data : list TaskData) w :
  accelerators_in_order self →
  accelerators_in_order (_al_create_and_start_processes self tasks_data w).1.1.
Proof.
  intros (Hnext & Hrange & Hinc).
  unfold QueueExecutionEnvironment._al_create_and_start_processes.
  destruct (create_tasks_spec self tasks_data w) as (Hp & Hg & Hn).
  destruct (create_tasks self tasks_data w) as [[self2 w3] [e|tasks]]; simpl in *.
  - unfold accelerators_in_order. by rewrite Hp, Hg, Hn.
  - assert (accelerators_in_order self2) as Hinv2.
    { unfold accelerators_in_order. by rewrite Hp, Hg, Hn. }
    pose proof (create_processes_in_order tasks self2 w3 Hinv2) as Hinv3.
    unfold QueueExecutionEnvironment.create_and_start.
    by destruct (create_processes tasks self2 w3) as [[self3 w4] [[]|e|obj|]].
Qed.

(** X11. Accelerators are never shared.  After a startup of a newly made
    environment with [k] accelerators detected, however it ends, every
    process bound to an accelerator holds an index in [0, k), and along
    [self._procs] these indices increase: no two processes hold the
    same one. *)
Theorem accelerators_are_never_shared (flow_type : FlowType) (k : Z)
    (tasks_data : list TaskData) w :
  let r := _al_create_and_start_processes (__init__ flow_type k) tasks_data w in
  (∀ i p g, _procs r.1.1 !! i = Some p → process_gpu p = Some g → 0 ≤ g < k) ∧
  (∀ i j p q g h, (i < j)%nat →
     _procs r.1.1 !! i = Some p → _procs r.1.1 !! j = Some q →
     process_gpu p = Some g → process_gpu q = Some h → g < h).
Proof.
  intros r.
  destruct (startup_in_order (__init__ flow_type k) tasks_data w) as (_ & Hrange & Hinc).
  { split; [simpl; lia|]. split; [intros i p g Hi; done|intros i j p q g h _ Hi; done]. }
  fold r in Hrange, Hinc. split; [|done].
  intros i p g Hi Hg. destruct (Hrange i p g Hi Hg) as [? Hlt].
  assert (_nb_available_gpus r.1.1 = k) as Hk.
  { subst r. unfold QueueExecutionEnvironment._al_create_and_start_processes.
    destruct (create_tasks_spec (__init__ flow_type k) tasks_data w) as (_ & _ & Hn).
    destruct (create_tasks _ _ _) as [[self2 w3] [e|tasks]]; simpl in *; [done|].
    destruct (create_and_start_spec device_type change_device tasks self2 w3)
      as (_ & Hn' & _).
    by rewrite Hn', Hn. }
  lia.
Qed.

(** X12. Two units of one run never see the same accelerator.  Take two
    different processes of a startup of a newly made environment, both
    bound to an accelerator.  Whatever environments they start with, each
    runs its task with [CUDA_VISIBLE_DEVICES] set to the numeral of its own
    index, and the two numerals differ. *)
Theorem units_see_different_accelerators {R : Type}
    (run : Task V → gmap string string → R) (flow_type : FlowType) (k : Z)
    (tasks_data : list TaskData) w i j p q g h (environ environ' : gmap string string) :
  let r := _al_create_and_start_processes (__init__ flow_type k) tasks_data w in
  _procs r.1.1 !! i = Some p →
  _procs r.1.1 !! j = Some q →
  i ≠ j →
  process_gpu p = Some g →
  process_gpu q = Some h →
  (process_run run p environ).1 !! "CUDA_VISIBLE_DEVICES" = Some (pretty g) ∧
  (process_run run q environ').1 !! "CUDA_VISIBLE_DEVICES" = Some (pretty h) ∧
  (process_run run p environ).2 = Executor.task_run run (process_task p)
                                     (process_run run p environ).1 ∧
  pretty g ≠ (pretty h : string).
Proof.
  intros r Hi Hj Hij Hg Hh.
  destruct (startup_in_order (__init__ flow_type k) tasks_data w) as (_ & _ & Hinc).
  { split; [simpl; lia|]. split; [intros ? ? ? ?; done|intros ? ? ? ? ? ? _ ?; done]. }
  fold r in Hinc.
  assert (g ≠ h) as Hne.
  { destruct (decide (i < j)%nat).
    - pose proof (Hinc i j p q g h ltac:(done) Hi Hj Hg Hh). lia.
    - pose proof (Hinc j i q p h g ltac:(lia) Hj Hi Hh Hg). lia. }
  destruct p as [tp|tp gp]; [done|]. destruct q as [tq|tq gq]; [done|].
  simpl in Hg, Hh. injection Hg as ->. injection Hh as ->.
  simpl. unfold Executor.task_executor_gpu_fn. simpl.
  rewrite !lookup_insert_eq. repeat split.
  intros Heq. by apply (inj pretty) in Heq.
Qed.

(** ** Termination signal, joining, isolation *)

(** X13. [signal_flow_termination] sets the environment's event and
    nothing else: it returns, the other events, the queues and the log are
    as before, and a second call changes nothing more.  On an environment
    that has not been started there is no event yet and the call raises
    [AttributeError]. *)
Theorem signal_sets_only_its_event self w :
  (∀ flow_type k, signal_flow_termination (__init__ flow_type k) w
                  = (w, Raised AttributeError)) ∧
  match _termination_event self with
  | None => signal_flow_termination self w = (w, Raised AttributeError)
  | Some e =>
      let r := signal_flow_termination self w in
      r.2 = Returned tt ∧
      queues r.1 = queues w ∧ log r.1 = log w ∧
      length (events r.1) = length (events w) ∧
      (∀ e', e' ≠ e → events r.1 !! e' = events w !! e') ∧
      signal_flow_termination self r.1 = (r.1, Returned tt)
  end.
Proof.
  split; [done|]. unfold signal_flow_termination.
  destruct (_termination_event self) as [e|]; [|done]. simpl.
  split; [done|]. split; [done|]. split; [done|].
  split; [by rewrite length_insert|].
  split; [intros e' Hne; by rewrite list_lookup_insert_ne|].
  unfold set_event. simpl. by rewrite list_insert_insert_eq.
Qed.

Lemma join_from_ext (join join' : nat → nat → JoinResult) (procs : list (Process V)) i :
  (∀ d k, (d < length procs)%nat → (k < 2)%nat → join (i + d)%nat k = join' (i + d)%nat k) →
  join_from join i procs = join_from join' i procs.
Proof.
  revert i. induction procs as [|p rest IH]; intros i Heq; [done|].
  simpl.
  pose proof (Heq 0%nat 0%nat ltac:(simpl; lia) ltac:(lia)) as H0.
  pose proof (Heq 0%nat 1%nat ltac:(simpl; lia) ltac:(lia)) as H1.
  rewrite Nat.add_0_r in H0, H1. rewrite <- H0, <- H1.
  rewrite (IH (S i)); [done|].
  intros d k Hd Hk. replace (S i + d)%nat with (i + S d)%nat by lia.
  apply Heq; [simpl; lia|done].
Qed.

Lemma join_from_segment (join : nat → nat → JoinResult) (procs : list (Process V)) i :
  ∃ d, (join_from join i procs).1 = seq i d ∧
       ((join_from join i procs).2 = Returned tt ∧ d = length procs ∨
        (join_from join i procs).2 = Raised KeyboardInterrupt ∧ (d < length procs)%nat).
Proof.
  revert i. induction procs as [|p rest IH]; intros i; simpl.
  - exists 0%nat. split; [done|]. by left.
  - destruct (IH (S i)) as (d & Hseq & Hout).
    destruct (join_from join (S i) rest) as [waited o]. simpl in *.
    assert (∃ d', i :: waited = seq i d' ∧
              (o = Returned tt ∧ d' = S (length rest) ∨
               o = Raised KeyboardInterrupt ∧ (d' < S (length rest))%nat)) as Hcons.
    { exists (S d). simpl. rewrite Hseq. split; [done|].
      destruct Hout as [[-> ->]|[-> ?]]; [by left|right; split; [done|lia]]. }
    destruct (join i 0%nat); [done|]. destruct (join i 1%nat); [done|].
    exists 0%nat. split; [done|]. right. split; [done|lia].
Qed.

(** X14. [join_task_processes] waits at most twice for a unit, and for the
    units in order.  Its result depends on nothing but how the first and
    the second wait on each unit end; the units waited for are always the
    first [d] of [self._procs], all of them exactly when the call returns;
    and the only exception it lets through is [KeyboardInterrupt]. *)
Theorem join_waits_at_most_twice_per_unit self (join join' : nat → nat → JoinResult) :
  (∀ i k, (i < length (_procs self))%nat → (k < 2)%nat → join i k = join' i k) →
  join_task_processes self join = join_task_processes self join' ∧
  ∃ d, (join_task_processes self join).1 = seq 0 d ∧
       ((join_task_processes self join).2 = Returned tt ∧ d = length (_procs self) ∨
        (join_task_processes self join).2 = Raised KeyboardInterrupt ∧
        (d < length (_procs self))%nat).
Proof.
  intros Heq. unfold join_task_processes. split.
  - apply join_from_ext. intros d k Hd Hk. by apply Heq.
  - apply join_from_segment.
Qed.

Lemma store_frame w (ro : option qref) (q : option (Queue V)) r :
  events (store w ro q) = events w ∧ log (store w ro q) = log w ∧
  length (queues (store w ro q)) = length (queues w) ∧
  (ro ≠ Some r → queues (store w ro q) !! r = queues w !! r).
Proof.
  destruct ro as [i|], q as [q'|]; simpl; try done.
  split; [done|]. split; [done|]. split; [by rewrite length_insert|].
  intros Hne. apply list_lookup_insert_ne. congruence.
Qed.

(** X15. On the shared queues, a messenger only ever appends to its
    outbound queue and only ever takes the head of its inbound queue.
    After a sending method, the queue [self._task_queue] refers to is
    either as before or as before with the method's envelope at the back,
    never shorter or reordered; after [receive_message], the queue
    [self._parent_task_queue] refers to is either as before or has lost
    exactly its head, which is then the messenger's last received
    envelope.  Every other queue is as before. *)
Theorem messenger_appends_and_takes_heads_only c (m : Messenger V) w r q :
  queues w !! r = Some q →
  (∀ s,
     let sent : envelope V :=
       match s with
       | publish_message_ v | publish_termination_message_ v =>
           Some match _last_message_received m with
                | None => {[ id (_computation_node m) := v ]}
                | Some d => <[ id (_computation_node m) := v ]> d
                end
       | _ => _last_message_received m
       end in
     let w' := (call_send c s m w).1.2 in
     if decide (_task_queue m = Some r) then
       queues w' !! r = Some q ∨
       queues w' !! r = Some (mkQueue (maxsize q) (items q ++ [sent]))
     else queues w' !! r = Some q) ∧
  (let w' := (call_receive c m w).1.2 in
   if decide (_parent_task_queue m = Some r) then
     queues w' !! r = Some q ∧ (call_receive c m w).1.1 = m ∨
     ∃ head rest, items q = head :: rest ∧
                  queues w' !! r = Some (mkQueue (maxsize q) rest) ∧
                  _last_message_received (call_receive c m w).1.1 = head
   else queues w' !! r = Some q).
Proof.
  intros Hq. pose proof (lookup_lt_Some _ _ _ Hq) as Hlt. split.
  - intros s sent w'. subst w'. unfold call_send. case_decide as Hr.
    + rewrite Hr. simpl. rewrite Hq.
      destruct (full q) eqn:Hf.
      * left. rewrite send_unfold.
        unfold RealtimeQueueMessenger.swallowing, task_queue_put, queue_put, put.
        rewrite Hf. destruct c, (blocking _ s); simpl;
          by rewrite list_lookup_insert_eq.
      * right. rewrite send_room by done. simpl.
        rewrite list_lookup_insert_eq by done.
        unfold enqueue. by rewrite outgoing_fields.
    + destruct (send c s m _) as [[m' tq'] o]. simpl.
      by rewrite (proj2 (proj2 (proj2 (store_frame w (_task_queue m) tq' r))) Hr).
  - unfold call_receive. case_decide as Hr.
    + rewrite Hr. simpl. rewrite Hq, receive_unfold.
      unfold BatchprocessingQueueMessenger.receive_message, get.
      destruct (items q) as [|head rest] eqn:Hi.
      * left. simpl. by rewrite list_lookup_insert_eq.
      * right. exists head, rest. split; [done|].
        destruct (index_all head (_parent_nodes_ids m)); simpl;
          by rewrite list_lookup_insert_eq.
    + destruct (receive c m _) as [[m' pq'] o]. simpl.
      by rewrite (proj2 (proj2 (proj2 (store_frame w (_parent_task_queue m) pq' r))) Hr).
Qed.

Lemma initialize_tasks_unbound (tasks_data : list TaskData) self w tasks :
  _flow_type self = OtherFlow →
  Exists (λ data, kind (data_node data) ≠ OtherNode) tasks_data →
  (initialize_tasks tasks_data self w tasks).2 = inl UnboundLocalError.
Proof.
  intros Hflow Hex. revert w tasks.
  induction tasks_data as [|data rest IH]; intros w tasks; [by inversion Hex|].
  simpl. unfold new_messenger, new_task. rewrite Hflow.
  destruct (kind (data_node data)) eqn:Ek; simpl; try done.
  apply IH. inversion Hex as [? ? Hh|]; [congruence|done].
Qed.

(** X16. With a flow type that is neither [BATCH] nor [REALTIME], startup
    of a topology holding a node of a known class raises
    [UnboundLocalError]: no messenger was ever built for the task that
    needs one.  No process object has been created and none started. *)
Theorem unknown_flow_type_fails_startup self (tasks_data : list TaskData) w :
  _flow_type self = OtherFlow →
  Exists (λ data, kind (data_node data) ≠ OtherNode) tasks_data →
  let r := _al_create_and_start_processes self tasks_data w in
  r.2 = Raised UnboundLocalError ∧
  _procs r.1.1 = _procs self ∧
  ∃ L, log r.1.2 = log w ++ L ∧ ∀ i, ProcessStarted i ∉ L.
Proof.
  intros Hflow Hex r.
  assert (r.2 = Raised UnboundLocalError ∧ _procs r.1.1 = _procs self) as [Hout Hprocs].
  { subst r. unfold QueueExecutionEnvironment._al_create_and_start_processes.
    destruct (create_tasks_spec self tasks_data w) as (Hp & _).
    unfold QueueExecutionEnvironment.create_tasks in *.
    destruct (create_output_queues_spec tasks_data self w) as (_ & _ & _ & _ & _ & Hf).
    destruct (create_output_queues tasks_data self w) as [self1 w1]. simpl in *.
    set (self2 := set_termination_event self1 _) in *.
    set (w2 := emit _ _) in *.
    pose proof (initialize_tasks_unbound tasks_data self2 w2 []
                  ltac:(subst self2; simpl; congruence) Hex) as Hinit.
    destruct (initialize_tasks tasks_data self2 w2 []) as [w3 res]. simpl in *.
    by subst res. }
  split; [done|]. split; [done|].
  apply (startup_failed_not_started device_type change_device). fold r.
  by rewrite Hout.
Qed.

(** X18. A second startup on the same environment reuses no accelerator.
    The processes of the first startup stay at the head of
    [self._procs], and over the whole list the accelerator indices still
    lie in [0, k) and increase: the counter goes on from where the first
    startup left it. *)
Theorem second_startup_reuses_no_accelerator (flow_type : FlowType) (k : Z)
    (first second : list TaskData) w w' :
  let r1 := _al_create_and_start_processes (__init__ flow_type k) first w in
  let r2 := _al_create_and_start_processes r1.1.1 second w' in
  (∃ ps, _procs r2.1.1 = _procs r1.1.1 ++ ps) ∧
  (∀ i p g, _procs r2.1.1 !! i = Some p → process_gpu p = Some g →
     0 ≤ g ∧ g < _nb_available_gpus r2.1.1) ∧
  (∀ i j p q g h, (i < j)%nat →
     _procs r2.1.1 !! i = Some p → _procs r2.1.1 !! j = Some q →
     process_gpu p = Some g → process_gpu q = Some h → g < h).
Proof.
  intros r1 r2.
  assert (accelerators_in_order r1.1.1) as Hinv1.
  { apply startup_in_order. split; [simpl; lia|].
    split; [intros ? ? ? ?; done|intros ? ? ? ? ? ? _ ?; done]. }
  destruct (startup_in_order r1.1.1 second w' Hinv1) as (_ & Hrange & Hinc).
  fold r2 in Hrange, Hinc.
  destruct (startup_spec device_type change_device r1.1.1 second w')
    as (_ & _ & Q & C & ps & S & _ & _ & _ & _ & Hps & _).
  fold r2 in Hps.
  split; [by exists ps|]. split; [|done].
  intros i p g Hi Hg. destruct (Hrange i p g Hi Hg). lia.
Qed.

End EnvironmentFacts.

(** ** The further properties at work on the example pipelines *)

Lemma published_values_arrive_in_order_witness :
  ∃ q' reader',
    send_all Batchprocessing (publish_message_ <$> [1; 2; 3; 4; 5]) Examples.source
      (Some Scenarios.empty10)
    = (Examples.source, Some q', Returned tt) ∧
    receive_n Realtime 5 Scenarios.reader_of_A (Some q')
    = (reader', Some Scenarios.empty10, Returned [[1]; [2]; [3]; [4]; [5]]).
Proof.
  apply (published_values_arrive_in_order Batchprocessing Realtime [1; 2; 3; 4; 5]
           Examples.source Scenarios.reader_of_A Scenarios.empty10);
    [reflexivity|reflexivity|simpl; lia|reflexivity].
Defined.

Lemma policies_agree_with_room_witness :
  send Realtime (publish_message_ 5) Examples.transform (Some Examples.empty2)
  = send Batchprocessing (publish_message_ 5) Examples.transform (Some Examples.empty2).
Proof.
  apply (policies_agree_with_room (publish_message_ 5) Examples.transform Examples.empty2).
  reflexivity.
Defined.

Lemma channel_stays_within_capacity_witness :
  ∃ q', (send Realtime passthrough_message_ Examples.transform (Some Examples.full2)).1.2
        = Some q' ∧
        within_capacity q' ∧ maxsize q' = 2%nat.
Proof.
  assert (within_capacity Examples.full2) as Hcap.
  { unfold within_capacity. simpl. lia. }
  exact (proj1 (channel_stays_within_capacity Examples.full2 Hcap)
           Realtime passthrough_message_ Examples.transform).
Defined.

Lemma publish_ignores_earlier_sends_witness :
  (send Realtime (publish_message_ 9)
     (send_all Batchprocessing [publish_message_ 1; passthrough_message_]
        Examples.transform (Some Examples.empty2)).1.1
     (Some Examples.empty2)).1.2
  = Some (mkQueue 2 [Some (<[ 2%nat := 9 ]> {[ 1%nat := 7 ]})]).
Proof.
  rewrite (publish_ignores_earlier_sends Batchprocessing Realtime
             [publish_message_ 1; passthrough_message_] Examples.transform
             (Some Examples.empty2) 9 Examples.empty2 eq_refl).
  reflexivity.
Defined.

Lemma receive_reports_first_missing_parent_witness :
  receive Batchprocessing Examples.sink (Some Scenarios.from_A)
  = (mkMessenger Examples.node_K (Some 1%nat) (Some 2%nat) [1%nat; 2%nat] (Some 0%nat)
       (Some {[ 1%nat := 7 ]}),
     Some (mkQueue 10 []), Raised (KeyError 2)) ∧
  _last_message_received
    (receive Batchprocessing Examples.sink (Some Scenarios.from_A)).1.1
  = Some {[ 1%nat := 7 ]}.
Proof.
  apply (receive_reports_first_missing_parent Batchprocessing Examples.sink
           Scenarios.from_A {[ 1%nat := 7 ]} [] [1%nat] [] 2%nat);
    [reflexivity|reflexivity| |reflexivity].
  constructor; [|constructor]. by exists 7.
Defined.

Lemma envelope_accumulates_along_path_witness :
  ∃ m2 qout',
    send Batchprocessing (publish_message_ 14)
      (receive Batchprocessing Scenarios.fresh_transform (Some Scenarios.from_A)).1.1
      (Some Scenarios.empty10)
    = (m2, Some qout', Returned tt) ∧
    items qout' = [Some (<[ 2%nat := 14 ]> {[ 1%nat := 7 ]})] ∧
    (receive Realtime Examples.sink (Some qout')).2 = Returned [7; 14].
Proof.
  apply (envelope_accumulates_along_path Batchprocessing Batchprocessing Realtime
           Scenarios.fresh_transform Examples.sink Scenarios.from_A Scenarios.empty10
           {[ 1%nat := 7 ]} [] [7] 14 [7; 14]);
    [reflexivity|reflexivity|reflexivity|reflexivity|].
  repeat constructor.
Defined.

Lemma startup_wires_child_to_parent_witness :
  ∃ tp t q,
    Scenarios.pipeline_tasks !! 0%nat = Some (Some tp) ∧
    Scenarios.pipeline_tasks !! 1%nat = Some (Some t) ∧
    _task_queue (task_messenger tp).2 = Some q ∧
    _parent_task_queue (task_messenger t).2 = Some q.
Proof.
  destruct (startup_wires_child_to_parent
              (QueueExecutionEnvironment.__init__ BATCH 0) Examples.pipeline
              Examples.empty_world Scenarios.pipeline_built.1.1
              Scenarios.pipeline_built.1.2 Scenarios.pipeline_tasks 0 1
              (mkTaskData Examples.node_A 1 None true)
              (mkTaskData Examples.node_B 2 (Some 1%nat) true)
              eq_refl eq_refl eq_refl ltac:(discriminate) ltac:(discriminate) eq_refl)
    as (tp & t & q & H0 & H1 & Hq & Hpq & _).
  by exists tp, t, q.
Defined.

Lemma task_without_parent_cannot_receive_witness :
  ∃ t, Scenarios.pipeline_tasks !! 0%nat = Some (Some t) ∧
       call_receive (task_messenger t).1 (task_messenger t).2 Scenarios.pipeline_built.1.2
       = ((task_messenger t).2, Scenarios.pipeline_built.1.2, Raised AttributeError).
Proof.
  destruct (task_without_parent_cannot_receive
              (QueueExecutionEnvironment.__init__ BATCH 0) Examples.pipeline
              Examples.empty_world Scenarios.pipeline_built.1.1
              Scenarios.pipeline_built.1.2 Scenarios.pipeline_tasks 0
              (mkTaskData Examples.node_A 1 None true)
              eq_refl eq_refl ltac:(discriminate) eq_refl)
    as (t & H0 & _ & Hrecv).
  exists t. split; [exact H0|apply Hrecv].
Defined.

Lemma after_startup_child_receives_what_parent_publishes_witness :
  ∃ tp t w4,
    Scenarios.pipeline_tasks !! 0%nat = Some (Some tp) ∧
    Scenarios.pipeline_tasks !! 1%nat = Some (Some t) ∧
    call_send (task_messenger tp).1 (publish_message_ 7) (task_messenger tp).2
      Scenarios.pipeline_built.1.2
    = ((task_messenger tp).2, w4, Returned tt) ∧
    call_receive (task_messenger t).1 (task_messenger t).2 w4
    = (set_last_message_received (task_messenger t).2 (Some {[ 1%nat := 7 ]}),
       Scenarios.pipeline_built.1.2, Returned [7]).
Proof.
  exact (after_startup_child_receives_what_parent_publishes
           (QueueExecutionEnvironment.__init__ BATCH 0) Examples.pipeline
           Examples.empty_world Scenarios.pipeline_built.1.1
           Scenarios.pipeline_built.1.2 Scenarios.pipeline_tasks 0 1
           (mkTaskData Examples.node_A 1 None true)
           (mkTaskData Examples.node_B 2 (Some 1%nat) true) 7
           eq_refl eq_refl eq_refl ltac:(discriminate) ltac:(discriminate) eq_refl eq_refl).
Defined.

Lemma units_see_different_accelerators_witness :
  (process_run Scenarios.idle (Scenarios.unit_at 1) ∅).1 !! "CUDA_VISIBLE_DEVICES"
  = Some "0" ∧
  (process_run Scenarios.idle (Scenarios.unit_at 2) ∅).1 !! "CUDA_VISIBLE_DEVICES"
  = Some "1".
Proof.
  destruct (units_see_different_accelerators Examples.device_type Examples.change_device
              Scenarios.idle BATCH 2 Examples.gpu_pipeline Examples.empty_world
              1 2 (Scenarios.unit_at 1) (Scenarios.unit_at 2) 0 1 ∅ ∅
              eq_refl eq_refl ltac:(discriminate) eq_refl eq_refl)
    as (H1 & H2 & _).
  split; [exact H1|exact H2].
Defined.

Lemma join_waits_at_most_twice_per_unit_witness :
  QueueExecutionEnvironment.join_task_processes Examples.pipeline_run.1.1
    Examples.interrupted_once
  = QueueExecutionEnvironment.join_task_processes Examples.pipeline_run.1.1
      Scenarios.interrupted_late.
Proof.
  apply (join_waits_at_most_twice_per_unit Examples.pipeline_run.1.1
           Examples.interrupted_once Scenarios.interrupted_late).
  intros [|[|[|i]]] [|[|k]] Hi Hk; first [reflexivity | simpl in Hi; lia | lia].
Defined.

Lemma unknown_flow_type_fails_startup_witness :
  (QueueExecutionEnvironment._al_create_and_start_processes
     Examples.device_type Examples.change_device
     (QueueExecutionEnvironment.__init__ OtherFlow 0) Examples.pipeline
     Examples.empty_world).2
  = Raised UnboundLocalError.
Proof.
  apply (unknown_flow_type_fails_startup Examples.device_type Examples.change_device
           (QueueExecutionEnvironment.__init__ OtherFlow 0) Examples.pipeline
           Examples.empty_world eq_refl).
  apply Exists_cons_hd. discriminate.
Defined.

Lemma realtime_keeps_oldest_values_witness :
  send_all Realtime (publish_message_ <$> [1; 2; 3]) Examples.source (Some Examples.empty2)
  = (Examples.source,
     Some (mkQueue 2 [Some {[ 1%nat := 1 ]}; Some {[ 1%nat := 2 ]}]),
     Returned tt).
Proof.
  apply (realtime_keeps_oldest_values [1; 2; 3] Examples.source Examples.empty2 eq_refl).
  unfold within_capacity. simpl. lia.
Defined.

Lemma messenger_appends_and_takes_heads_only_witness :
  queues Scenarios.pipeline_built.1.2 !! 0%nat = Some (mkQueue 10 []) ∧
  queues (call_send Batchprocessing (publish_message_ 7) Examples.source
            Scenarios.pipeline_built.1.2).1.2 !! 0%nat
  = Some (mkQueue 10 [Some {[ 1%nat := 7 ]}]).
Proof.
  split; [reflexivity|].
  destruct (messenger_appends_and_takes_heads_only Batchprocessing Examples.source
              Scenarios.pipeline_built.1.2 0 (mkQueue 10 []) eq_refl) as (Hsend & _).
  specialize (Hsend (publish_message_ 7)). simpl in Hsend.
  destruct Hsend as [Hsame|Happended]; [|exact Happended].
  vm_compute in Hsame. discriminate Hsame.
Defined.

